(** * pg-boss: the queue manager (src/manager.js)

    A shallow embedding of the [Manager] class: JavaScript values, the
    promise discipline the methods are written in, the subscription
    registry, the dedup-aware job creation and the completion calls,
    followed by the properties the specification states about them. *)

From Stdlib Require Import ZArith String List Bool Lia DecimalString.
From stdpp Require Import gmap strings list fin_maps.

Set Warnings "-register-all".

Local Open Scope string_scope.
Local Open Scope list_scope.
Local Open Scope Z_scope.

(** ** JavaScript values *)

Module Js.

(** The values that reach the manager. A number is an integer-valued
    double, held as a [Z]; a callable is kept by a tag only, since the
    manager never looks inside one. *)
Inductive JsVal : Type :=
| VUndefined
| VNull
| VBool (b : bool)
| VNum (n : Z)
| VStr (s : string)
| VFunc (tag : nat)
| VArr (items : list JsVal)
| VObj (props : list (string * JsVal)).

(** [typeof v] *)
Definition typeof (v : JsVal) : string :=
  match v with
  | VUndefined => "undefined"
  | VNull => "object"
  | VBool _ => "boolean"
  | VNum _ => "number"
  | VStr _ => "string"
  | VFunc _ => "function"
  | VArr _ => "object"
  | VObj _ => "object"
  end.

(** [Array.isArray(v)] *)
Definition Array_isArray (v : JsVal) : bool :=
  match v with VArr _ => true | _ => false end.

(** [v === null] *)
Definition is_null (v : JsVal) : bool :=
  match v with VNull => true | _ => false end.

(** ToBoolean: what [if (v)], [!v] and [v || w] test. *)
Definition truthy (v : JsVal) : bool :=
  match v with
  | VUndefined | VNull => false
  | VBool b => b
  | VNum n => negb (n =? 0)
  | VStr s => negb (String.eqb s "")
  | VFunc _ | VArr _ | VObj _ => true
  end.

(** The scalars: booleans, numbers and strings. *)
Definition is_scalar (v : JsVal) : bool :=
  match v with VBool _ | VNum _ | VStr _ => true | _ => false end.

(** An optional numeric argument or option: [None] when it is left out. *)
Definition num_truthy (o : option Z) : bool :=
  match o with Some n => negb (n =? 0) | None => false end.

(** [a || b] on two optional numbers. *)
Definition num_or (a b : option Z) : option Z :=
  if num_truthy a then a else b.

(** [a || d] with a numeric default. *)
Definition num_or_default (a : option Z) (d : Z) : Z :=
  match a with Some n => if n =? 0 then d else n | None => d end.

(** [a || d] with a string default. *)
Definition str_or_default (a : option string) (d : string) : string :=
  match a with Some s => if String.eqb s "" then d else s | None => d end.

(** [a > 0] on an optional number: [undefined > 0] and [null > 0] are false. *)
Definition num_gt0 (a : option Z) : bool :=
  match a with Some n => 0 <? n | None => false end.

(** [a * k] on an optional number of which [a > 0] is known to hold;
    elsewhere the product is not used. *)
Definition num_mul (a : option Z) (k : Z) : option Z :=
  match a with Some n => Some (n * k) | None => None end.

(** ['' + n]: the decimal numeral of an integer. *)
Definition Number_toString (n : Z) : string :=
  NilZero.string_of_int (Z.to_int n).

(** [a || null] on an optional string. *)
Definition str_or_null (a : option string) : option string :=
  match a with Some s => if String.eqb s "" then None else Some s | None => None end.

(** [Array.isArray(v) ? v : [v]] *)
Definition as_array (v : JsVal) : list JsVal :=
  match v with VArr items => items | _ => [v] end.

(** A number or [null] as a value. *)
Definition of_num (o : option Z) : JsVal :=
  match o with Some n => VNum n | None => VNull end.

(** A string or [null] as a value. *)
Definition of_str (o : option string) : JsVal :=
  match o with Some s => VStr s | None => VNull end.

End Js.

Export Js.

(** ** The data the manager handles *)

(** What a promise is rejected with, or a call throws. *)
Inductive JsError : Type :=
| AssertionError (message : string)
| TypeError (message : string)
| Reason (v : JsVal).

(** How a call ends: a promise resolved or rejected, or an exception
    thrown before any promise is returned. *)
Inductive Settled (A : Type) : Type :=
| Resolved (a : A)
| Rejected (e : JsError)
| Thrown (e : JsError).
Arguments Resolved {A} a.
Arguments Rejected {A} e.
Arguments Thrown {A} e.

(** The five commands the constructor prepares from [plans]; their SQL
    text belongs to the store. *)
Inductive Command : Type :=
| nextJobCommand
| insertJobCommand
| completeJobsCommand
| cancelJobsCommand
| failJobsCommand.

(** What [db.executeSql] resolves to. *)
Record SqlResult : Type := mkSqlResult {
  rowCount : Z;
  rows : list JsVal
}.

(** [options.startIn]: left out, [null], a number of seconds or an
    interval string. *)
Inductive StartIn : Type :=
| StartInAbsent
| StartInNull
| StartInNum (n : Z)
| StartInStr (s : string).

(** The options object of [publish]. *)
Record PublishOptions : Type := mkPublishOptions {
  startIn : StartIn;
  singletonSeconds : option Z;
  singletonMinutes : option Z;
  singletonHours : option Z;
  singletonDays : option Z;
  retryLimit : option Z;
  expireIn : option string;
  priority : option Z;
  singletonKey : option string;
  singletonNextSlot : option bool
}.

(** The options object of [subscribe] and [onComplete]. *)
Record SubscribeOptions : Type := mkSubscribeOptions {
  batchSize : option Z;
  teamSize : option Z;
  newJobCheckInterval : option Z;
  newJobCheckIntervalSeconds : option Z
}.

(** Modelled from the spec: the Worker class (./worker) is not among the
    sources. Section 4.3: a poller owns the polling loop of one
    subscription, [start()] begins it and [stop()] ends it for good. The
    record keeps what [watch] puts in [workerConfig]: the name, the
    options and the callback its [fetch] and [respond] closures capture,
    and whether the loop runs. *)
Record Worker : Type := mkWorker {
  w_name : string;
  w_options : SubscribeOptions;
  w_callback : JsVal;
  w_running : bool
}.

Definition Worker_stop (k : Worker) : Worker :=
  mkWorker (w_name k) (w_options k) (w_callback k) false.

(** The collaborators of the manager whose code lies outside
    src/manager.js: the database, the id generator, [plans], the
    configuration and the argument checks of [Attorney]. *)
Record Collaborators (Store : Type) : Type := mkCollaborators {
  db_executeSql : Command -> list JsVal -> Store -> (JsVal + SqlResult) * Store;
  uuid : nat -> string;
  completedJobSuffix : string;
  config_newJobCheckInterval : Z;
  checkPublishArgs : list JsVal -> JsError + (string * JsVal * PublishOptions);
  checkSubscribeArgs : string -> list JsVal -> JsError + (SubscribeOptions * JsVal);
  checkFetchArgs : list JsVal -> option Z -> JsError + unit;
  applyNewJobCheckInterval : SubscribeOptions -> JsError + SubscribeOptions
}.
Arguments db_executeSql {Store} _ _ _ _.
Arguments uuid {Store} _ _.
Arguments completedJobSuffix {Store} _.
Arguments config_newJobCheckInterval {Store} _.
Arguments checkPublishArgs {Store} _ _.
Arguments checkSubscribeArgs {Store} _ _ _.
Arguments checkFetchArgs {Store} _ _ _.
Arguments applyNewJobCheckInterval {Store} _ _.

(** The process: the store behind [this.db], the commands sent to it so
    far, the number of ids drawn, [this.subscriptions] (a subscription
    object is identified with the worker it holds) and every worker
    constructed, in order of construction. *)
Record World (Store : Type) : Type := mkWorld {
  store : Store;
  sql_log : list (Command * list JsVal);
  issued : nat;
  subscriptions : gmap string nat;
  workers : list Worker
}.
Arguments mkWorld {Store} _ _ _ _ _.
Arguments store {Store} _.
Arguments sql_log {Store} _.
Arguments issued {Store} _.
Arguments subscriptions {Store} _.
Arguments workers {Store} _.

(** The names every object inherits from [Object.prototype]; the [in]
    operator and a property read find them in an empty object too. *)
Definition Object_prototype_keys : list string :=
  [ "constructor"; "__defineGetter__"; "__defineSetter__"; "hasOwnProperty";
    "__lookupGetter__"; "__lookupSetter__"; "isPrototypeOf";
    "propertyIsEnumerable"; "toString"; "valueOf"; "__proto__";
    "toLocaleString" ].

Definition inherited (name : string) : bool :=
  bool_decide (name ∈ Object_prototype_keys).

(** [name in this.subscriptions] *)
Definition has_property (subs : gmap string nat) (name : string) : bool :=
  bool_decide (is_Some (subs !! name)) || inherited name.

(** ** The manager *)

Module Manager.

Section WithCollaborators.

Context {Store : Type}.
Variable env : Collaborators Store.

(** A method body: it runs against the process and ends settled. *)
Definition Promise (A : Type) : Type := World Store -> Settled A * World Store.

Definition Promise_resolve {A} (a : A) : Promise A := fun w => (Resolved a, w).
Definition Promise_reject {A} (e : JsError) : Promise A := fun w => (Rejected e, w).
Definition throw {A} (e : JsError) : Promise A := fun w => (Thrown e, w).

(** [p.then(k)]: [k] runs when [p] resolves; an exception thrown inside
    [k] rejects the resulting promise. *)
Definition then_ {A B} (p : Promise A) (k : A -> Promise B) : Promise B :=
  fun w =>
    match p w with
    | (Resolved a, w1) =>
        match k a w1 with
        | (Thrown e, w2) => (Rejected e, w2)
        | r => r
        end
    | (Rejected e, w1) => (Rejected e, w1)
    | (Thrown e, w1) => (Thrown e, w1)
    end.

Notation "p '.then' ( x => k )" := (then_ p (fun x => k))
  (at level 1, x binder, left associativity, only parsing).

(** The promise an [Attorney] check returns: resolved with what it
    accepted, or rejected. *)
Definition checked {A} (verdict : JsError + A) : Promise A :=
  match verdict with
  | inl e => Promise_reject e
  | inr a => Promise_resolve a
  end.

(** [this.db.executeSql(command, values)]: the store answers and moves
    on; the call is recorded. *)
Definition executeSql (command : Command) (values : list JsVal) : Promise SqlResult :=
  fun w =>
    let '(answer, s) := db_executeSql env command values (store w) in
    let w1 := mkWorld s (sql_log w ++ [(command, values)]) (issued w)
                      (subscriptions w) (workers w) in
    match answer with
    | inl reason => (Rejected (Reason reason), w1)
    | inr result => (Resolved result, w1)
    end.

(** [require(`uuid/${this.config.uuid}`)()]: the next id of the generator. *)
Definition next_id (w : World Store) : string * World Store :=
  (uuid env (issued w),
   mkWorld (store w) (sql_log w) (S (issued w)) (subscriptions w) (workers w)).

(** *** Subscriptions *)

Definition set_batchSize (o : SubscribeOptions) (b : option Z) : SubscribeOptions :=
  mkSubscribeOptions b (teamSize o) (newJobCheckInterval o) (newJobCheckIntervalSeconds o).

Definition set_newJobCheckInterval (o : SubscribeOptions) (i : option Z) : SubscribeOptions :=
  mkSubscribeOptions (batchSize o) (teamSize o) i (newJobCheckIntervalSeconds o).

Definition already_subscribed : string :=
  "this job has already been subscribed on this instance.".

(** The options of [watch] once it has defaulted them:
    [options.batchSize = options.batchSize || options.teamSize], then the
    interval from [Attorney.applyNewJobCheckInterval] when one of its two
    options is there, from the configuration otherwise. An assertion of
    [Attorney] that fails is an exception. *)
Definition watch_options (options : SubscribeOptions) : JsError + SubscribeOptions :=
  let options1 := set_batchSize options (num_or (batchSize options) (teamSize options)) in
  if bool_decide (is_Some (newJobCheckInterval options1))
     || bool_decide (is_Some (newJobCheckIntervalSeconds options1))
  then applyNewJobCheckInterval env options1
  else inr (set_newJobCheckInterval options1 (Some (config_newJobCheckInterval env))).

(** [watch(name, options, callback)] *)
Definition watch (name : string) (options : SubscribeOptions) (callback : JsVal)
  : Promise JsVal :=
  fun w =>
    if has_property (subscriptions w) name
    then (Thrown (AssertionError already_subscribed), w)
    else
      match watch_options options with
      | inl e => (Thrown e, w)
      | inr options2 =>
          let worker := mkWorker name options2 callback true in
          (Resolved (VBool true),
           mkWorld (store w) (sql_log w) (issued w)
                   (<[name := length (workers w)]> (subscriptions w))
                   (workers w ++ [worker]))
      end.

(** [subscribe(name, ...args)] *)
Definition subscribe (name : string) (args : list JsVal) : Promise JsVal :=
  (checked (checkSubscribeArgs env name args)).then(oc =>
    watch name (fst oc) (snd oc)).

(** [onComplete(name, ...args)] *)
Definition onComplete (name : string) (args : list JsVal) : Promise JsVal :=
  (checked (checkSubscribeArgs env name args)).then(oc =>
    watch (name +:+ completedJobSuffix env) (fst oc) (snd oc)).

Definition no_subscriptions (name : string) : JsVal :=
  VStr ("No subscriptions for " +:+ name +:+ " were found.").

(** [unsubscribe(name)]. A name of [Object.prototype] that was never
    registered reads as an inherited member, which is truthy and has no
    [worker]: the call [.worker.stop()] throws. *)
Definition unsubscribe (name : string) : Promise JsVal :=
  fun w =>
    match subscriptions w !! name with
    | Some k =>
        (Resolved (VBool true),
         mkWorld (store w) (sql_log w) (issued w)
                 (delete name (subscriptions w))
                 (alter Worker_stop k (workers w)))
    | None =>
        if inherited name
        then (Thrown (TypeError "Cannot read property 'stop' of undefined"), w)
        else (Rejected (Reason (no_subscriptions name)), w)
    end.

(** [offComplete(name)] *)
Definition offComplete (name : string) : Promise JsVal :=
  unsubscribe (name +:+ completedJobSuffix env).

(** [Object.keys(this.subscriptions).forEach(name => this.unsubscribe(name))];
    what each call returns is dropped. *)
Definition unsubscribe_each (names : list string) (w : World Store) : World Store :=
  foldl (fun w1 name => snd (unsubscribe name w1)) w names.

(** [stop()] *)
Definition stop : Promise JsVal :=
  fun w =>
    let w1 := unsubscribe_each (map_to_list (subscriptions w)).*1 w in
    (Resolved (VBool true),
     mkWorld (store w1) (sql_log w1) (issued w1) ∅ (workers w1)).

(** *** Publishing *)

(** The local [startIn] of [createJob]. For a string [s] the first test,
    [s > 0], may go either way, and both ['' + s] and [s] are [s]. *)
Definition createJob_startIn (options : PublishOptions) : string :=
  match startIn options with
  | StartInNum n => if 0 <? n then Number_toString n else "0"
  | StartInStr s => s
  | StartInAbsent | StartInNull => "0"
  end.

(** The local [singletonSeconds] of [createJob]; [None] is [null]. *)
Definition createJob_singletonSeconds (options : PublishOptions) : option Z :=
  if num_gt0 (singletonSeconds options) then singletonSeconds options
  else if num_gt0 (singletonMinutes options) then num_mul (singletonMinutes options) 60
  else if num_gt0 (singletonHours options)
       then num_mul (num_mul (singletonHours options) 60) 60
  else if num_gt0 (singletonDays options)
       then num_mul (num_mul (num_mul (singletonDays options) 60) 60) 24
  else None.

(** [options.singletonNextSlot] as a condition *)
Definition nextSlot_requested (options : PublishOptions) : bool :=
  match singletonNextSlot options with Some b => b | None => false end.

(** [options.startIn = singletonSeconds; options.singletonNextSlot = false] *)
Definition round2 (options : PublishOptions) (seconds : option Z) : PublishOptions :=
  mkPublishOptions
    (match seconds with Some n => StartInNum n | None => StartInNull end)
    (singletonSeconds options) (singletonMinutes options)
    (singletonHours options) (singletonDays options)
    (retryLimit options) (expireIn options) (priority options)
    (singletonKey options) (Some false).

(** The [values] array of the insert. *)
Definition insert_values (id name : string) (data : JsVal)
    (options : PublishOptions) (singletonOffset : option Z) : list JsVal :=
  [ VStr id; VStr name;
    VNum (num_or_default (priority options) 0);
    VNum (num_or_default (retryLimit options) 0);
    VStr (createJob_startIn options);
    VStr (str_or_default (expireIn options) "15 minutes");
    data;
    of_str (str_or_null (singletonKey options));
    of_num (createJob_singletonSeconds options);
    VNum (num_or_default singletonOffset 0) ].

(** [createJob(name, data, options, singletonOffset)]. The method calls
    itself; [fuel] bounds the nesting of calls and [None] means the bound
    was reached. The fourth argument is [None] when it is left out or
    [null]. Beside the settled promise the result carries the options
    object as the call leaves it, since the method writes to it. *)
Fixpoint createJob (fuel : nat) (name : string) (data : JsVal)
    (options : PublishOptions) (singletonOffset : option Z) (w : World Store)
  : option (Settled JsVal * PublishOptions * World Store) :=
  match fuel with
  | O => None
  | S fuel' =>
      let seconds := createJob_singletonSeconds options in
      let '(id, w1) := next_id w in
      let values := insert_values id name data options singletonOffset in
      match executeSql insertJobCommand values w1 with
      | (Resolved result, w2) =>
          if rowCount result =? 1 then Some (Resolved (VStr id), options, w2)
          else if negb (nextSlot_requested options) then Some (Resolved VNull, options, w2)
          else createJob fuel' name data (round2 options seconds) seconds w2
      | (Rejected e, w2) => Some (Rejected e, options, w2)
      | (Thrown e, w2) => Some (Rejected e, options, w2)
      end
  end.

(** [publish(...args)] *)
Definition publish (fuel : nat) (args : list JsVal) (w : World Store)
  : option (Settled JsVal * World Store) :=
  match checkPublishArgs env args with
  | inl e => Some (Rejected e, w)
  | inr (name, data, options) =>
      match createJob fuel name data options None w with
      | Some (outcome, _, w1) => Some (outcome, w1)
      | None => None
      end
  end.

(** *** Fetching *)

(** [fetch(name, batchSize)] *)
Definition fetch (name : JsVal) (batchSize : option Z) : Promise JsVal :=
  let names := as_array name in
  ((checked (checkFetchArgs env names batchSize)).then(_ =>
     executeSql nextJobCommand [VArr names; VNum (num_or_default batchSize 1)])).then(result =>
       Promise_resolve
         (if Nat.eqb (length (rows result)) 0 then VNull
          else if Nat.eqb (length (rows result)) 1 && negb (num_truthy batchSize)
               then nth 0 (rows result) VUndefined
               else VArr (rows result))).

(** [fetchCompleted(name, batchSize)] *)
Definition fetchCompleted (name : string) (batchSize : option Z) : Promise JsVal :=
  fetch (VStr (name +:+ completedJobSuffix env)) batchSize.

(** The [fetch] closure [watch] hands to a worker:
    [() => this.fetch(name, options.batchSize)]. *)
Definition Worker_fetch (k : Worker) : Promise JsVal :=
  fetch (VStr (w_name k)) (batchSize (w_options k)).

(** *** Completion *)

(** Modelled from the spec: [Attorney.assertAsync] is not among the
    sources. Section 7 has bad arguments rejected before any store
    interaction; by its use in [mapCompletionIdArg] it is the promise
    form of [assert]: resolved when the argument is truthy, rejected with
    the message otherwise. *)
Definition assertAsync (arg : JsVal) (errorMessage : string) : Promise unit :=
  if truthy arg then Promise_resolve tt
  else Promise_reject (AssertionError errorMessage).

(** [mapCompletionIdArg(id, funcName)] *)
Definition mapCompletionIdArg (id : JsVal) (funcName : string) : Promise (list JsVal) :=
  let errorMessage := funcName +:+ "() requires an id" in
  (assertAsync id errorMessage).then(_ =>
    let ids := as_array id in
    if negb (Nat.eqb (length ids) 0) then Promise_resolve ids
    else throw (AssertionError errorMessage)).

(** [mapCompletionDataArg(data)] *)
Definition mapCompletionDataArg (data : JsVal) : JsVal :=
  if is_null data
     || String.eqb (typeof data) "undefined"
     || String.eqb (typeof data) "function"
  then VNull
  else if String.eqb (typeof data) "object" && negb (Array_isArray data)
       then data
       else VObj [("value", data)].

(** [mapCompletionResponse(ids, result)] *)
Definition mapCompletionResponse (ids : list JsVal) (result : SqlResult) : JsVal :=
  VObj [ ("jobs", VArr ids);
         ("requested", VNum (Z.of_nat (length ids)));
         ("updated", VNum (rowCount result)) ].

(** [complete(id, data)] *)
Definition complete (id data : JsVal) : Promise JsVal :=
  (mapCompletionIdArg id "complete").then(ids =>
    (executeSql completeJobsCommand [VArr ids; mapCompletionDataArg data]).then(result =>
      Promise_resolve (mapCompletionResponse ids result))).

(** [fail(id, data)] *)
Definition fail (id data : JsVal) : Promise JsVal :=
  (mapCompletionIdArg id "fail").then(ids =>
    (executeSql failJobsCommand [VArr ids; mapCompletionDataArg data]).then(result =>
      Promise_resolve (mapCompletionResponse ids result))).

(** [cancel(id)] *)
Definition cancel (id : JsVal) : Promise JsVal :=
  (mapCompletionIdArg id "cancel").then(ids =>
    (executeSql cancelJobsCommand [VArr ids]).then(result =>
      Promise_resolve (mapCompletionResponse ids result))).

(** *** Dispatch *)

(** [job.key]: the value of an own property, [undefined] when there is
    none. [Object.prototype] and the members of arrays, functions and
    primitives are left out: the manager reads [id] only. *)
Definition property (key : string) (job : JsVal) : JsVal :=
  match job with
  | VObj props =>
      match List.find (fun kv => String.eqb (fst kv) key) props with
      | Some kv => snd kv
      | None => VUndefined
      end
  | _ => VUndefined
  end.

(** Whether [job.done = ...] goes through: the body of a class is strict
    code, where writing a property of a primitive, of [null] or of
    [undefined] throws. *)
Definition holds_properties (job : JsVal) : bool :=
  match job with VObj _ | VArr _ | VFunc _ => true | _ => false end.

(** The resolver [watch] puts on a job:
    [(error, response) => error ? this.fail(job.id, error)
                                : this.complete(job.id, response)]. *)
Definition job_done (job error response : JsVal) : Promise JsVal :=
  if truthy error then fail (property "id" job) error
  else complete (property "id" job) response.

(** The [respond] closure of [watch] up to [setImmediate]: the jobs whose
    dispatch it schedules, none when [jobs] is falsy. *)
Definition respond (jobs : JsVal) : list JsVal :=
  if negb (truthy jobs) then [] else as_array jobs.

(** The scheduled [jobs.forEach]: the jobs the callback is called with,
    in order, and the exception that ends the loop when a job cannot take
    the [done] property. What the callback throws is caught and the loop
    goes on. *)
Fixpoint dispatch (jobs : list JsVal) : list JsVal * option JsError :=
  match jobs with
  | [] => ([], None)
  | job :: rest =>
      if holds_properties job
      then let '(called, thrown) := dispatch rest in (job :: called, thrown)
      else ([], Some (TypeError "Cannot create property 'done'"))
  end.

(** The process once one insert was sent and answered. *)
Definition inserted (values : list JsVal) (w : World Store) : World Store :=
  mkWorld (snd (db_executeSql env insertJobCommand values (store w)))
          (sql_log w ++ [(insertJobCommand, values)])
          (S (issued w)) (subscriptions w) (workers w).

End WithCollaborators.

(** The three completion calls, to state what they share once. *)
Inductive CompletionCall : Type := Complete | Fail | Cancel.

Definition funcName (c : CompletionCall) : string :=
  match c with Complete => "complete" | Fail => "fail" | Cancel => "cancel" end.

Definition command_of (c : CompletionCall) : Command :=
  match c with
  | Complete => completeJobsCommand
  | Fail => failJobsCommand
  | Cancel => cancelJobsCommand
  end.

(** The values the call sends with its command. *)
Definition values_of (c : CompletionCall) (id data : JsVal) : list JsVal :=
  match c with
  | Complete | Fail => [VArr (as_array id); mapCompletionDataArg data]
  | Cancel => [VArr (as_array id)]
  end.

Definition call {Store} (env : Collaborators Store) (c : CompletionCall)
    (id data : JsVal) : Promise JsVal :=
  match c with
  | Complete => complete env id data
  | Fail => fail env id data
  | Cancel => cancel env id
  end.

(** ** A scripted store

    Concrete collaborators to run the methods on: the store answers each
    command with the next entry of a script and reports no row once the
    script is used up; the checks accept what they are given. *)
Module Scenario.

Definition Script : Type := list (JsVal + SqlResult).

Definition answer (c : Command) (values : list JsVal) (s : Script)
  : (JsVal + SqlResult) * Script :=
  match s with
  | a :: rest => (a, rest)
  | [] => (inr (mkSqlResult 0 []), [])
  end.

Definition job_id (n : nat) : string := "job-" +:+ Number_toString (Z.of_nat n).

(** [publish(name, data, options)] with the options read as [o]. *)
Definition accept_publish (o : PublishOptions) (args : list JsVal)
  : JsError + (string * JsVal * PublishOptions) :=
  match args with
  | VStr name :: data :: _ => inr (name, data, o)
  | [VStr name] => inr (name, VUndefined, o)
  | _ => inl (AssertionError "boss requires all jobs to have a queue name")
  end.

(** [subscribe(name, options, callback)] with the options read as [o]. *)
Definition accept_subscribe (o : SubscribeOptions) (name : string) (args : list JsVal)
  : JsError + (SubscribeOptions * JsVal) :=
  match args with
  | [callback] => inr (o, callback)
  | _ :: callback :: _ => inr (o, callback)
  | [] => inl (AssertionError "expected callback to be a function")
  end.

Definition collaborators (o : PublishOptions) (so : SubscribeOptions)
  : Collaborators Script :=
  mkCollaborators Script answer job_id "__state__completed" 1000
    (accept_publish o) (accept_subscribe so)
    (fun _ _ => inr tt) (fun options => inr options).

Definition no_options : PublishOptions :=
  mkPublishOptions StartInAbsent None None None None None None None None None.

Definition no_subscribe_options : SubscribeOptions :=
  mkSubscribeOptions None None None None.

Definition plain : Collaborators Script := collaborators no_options no_subscribe_options.

(** A fresh process on a given script. *)
Definition boot (s : Script) : World Script := mkWorld s [] 0%nat ∅ [].

Definition job (id : string) : JsVal := VObj [("id", VStr id)].

(** One job an hour under a key, the next slot asked for. *)
Definition hourly : PublishOptions :=
  mkPublishOptions StartInAbsent (Some 3600) None None None None None None
                   (Some "daily-report") (Some true).

(** [hourly] as the retry leaves it. *)
Definition hourly_round2 : PublishOptions :=
  mkPublishOptions (StartInNum 3600) (Some 3600) None None None None None None
                   (Some "daily-report") (Some false).

(** A team of [n] and nothing else. *)
Definition team (n : Z) : SubscribeOptions :=
  mkSubscribeOptions None (Some n) None None.

(** Publish an email job, fetch it, complete it, fetch again: the four
    outcomes in turn, on a store that inserts the job, hands it out once
    and marks it completed. *)
Definition email_round_trip : list (option (Settled JsVal)) :=
  let w0 := boot [ inr (mkSqlResult 1 []); inr (mkSqlResult 1 [job "job-0"]);
                   inr (mkSqlResult 1 []); inr (mkSqlResult 0 []) ] in
  match publish plain 2 [VStr "email"; VObj [("to", VStr "a@b.com")]] w0 with
  | None => [None]
  | Some (published, w1) =>
      let '(fetched, w2) := fetch plain (VStr "email") None w1 in
      let '(completed, w3) :=
        complete plain (VStr "job-0") (VObj [("sent", VBool true)]) w2 in
      let '(fetched_again, _) := fetch plain (VStr "email") None w3 in
      [Some published; Some fetched; Some completed; Some fetched_again]
  end.

End Scenario.

(** ** The process over time *)

Section Steps.

Context {Store : Type}.
Variable env : Collaborators Store.

(** One call of the exported api, or one poll of a running worker. *)
Inductive step : World Store -> World Store -> Prop :=
| step_subscribe name args w :
    step w (snd (subscribe env name args w))
| step_onComplete name args w :
    step w (snd (onComplete env name args w))
| step_unsubscribe name w :
    step w (snd (unsubscribe name w))
| step_offComplete name w :
    step w (snd (offComplete env name w))
| step_stop w :
    step w (snd (stop w))
| step_publish fuel args w outcome w' :
    publish env fuel args w = Some (outcome, w') -> step w w'
| step_fetch name batchSize w :
    step w (snd (fetch env name batchSize w))
| step_fetchCompleted name batchSize w :
    step w (snd (fetchCompleted env name batchSize w))
| step_call c id data w :
    step w (snd (call env c id data w))
| step_poll k worker w :
    workers w !! k = Some worker -> w_running worker = true ->
    step w (snd (Worker_fetch env worker w)).

(** The process as the constructor leaves it. *)
Definition started (s : Store) : World Store := mkWorld s [] 0%nat ∅ [].

Inductive reachable : World Store -> Prop :=
| reachable_started s : reachable (started s)
| reachable_step w w' : reachable w -> step w w' -> reachable w'.

End Steps.

(** The worker number [k] is a poller of [name]: constructed for it and
    still running. *)
Definition poller_of {Store} (w : World Store) (name : string) (k : nat) : Prop :=
  exists worker,
    workers w !! k = Some worker /\ w_name worker = name /\ w_running worker = true.

(** The registry and the workers agree: a running worker is the one
    registered under its name, and a registered name holds a poller. *)
Definition registry_consistent {Store} (w : World Store) : Prop :=
  (forall k worker,
     workers w !! k = Some worker -> w_running worker = true ->
     subscriptions w !! w_name worker = Some k) /\
  (forall name k, subscriptions w !! name = Some k -> poller_of w name k).

(** Two processes with the same registry and the same workers. *)
Definition same_registry {Store} (w w' : World Store) : Prop :=
  subscriptions w' = subscriptions w /\ workers w' = workers w.

(** Two processes with the same store, the same commands sent and the
    same ids drawn. *)
Definition same_store {Store} (w w' : World Store) : Prop :=
  store w' = store w /\ sql_log w' = sql_log w /\ issued w' = issued w.

(** A worker later in its life: the same name, options and callback, and
    not running if it was not. *)
Definition later_worker (a b : Worker) : Prop :=
  w_name b = w_name a /\ w_options b = w_options a /\ w_callback b = w_callback a /\
  (w_running a = false -> w_running b = false).

(** ** The window of a publish, in the words of the specification *)

(** The four window options with the number of seconds each counts in. *)
Definition window_members (options : PublishOptions) : list (option Z * Z) :=
  [ (singletonSeconds options, 1); (singletonMinutes options, 60);
    (singletonHours options, 3600); (singletonDays options, 86400) ].

(** The first member that is set, in seconds; [None] when none is. *)
Fixpoint first_set (members : list (option Z * Z)) : option Z :=
  match members with
  | [] => None
  | (Some n, unit_seconds) :: _ => Some (n * unit_seconds)
  | (None, _) :: rest => first_set rest
  end.

(** The first member that is greater than zero, in seconds. *)
Fixpoint first_positive (members : list (option Z * Z)) : option Z :=
  match members with
  | [] => None
  | (a, unit_seconds) :: rest =>
      if num_gt0 a then num_mul a unit_seconds else first_positive rest
  end.

(** ** Properties *)

Section Properties.

Context {Store : Type}.
Variable env : Collaborators Store.

(** *** The methods at work *)

Example startIn_seconds :
  createJob_startIn (Scenario.hourly_round2) = "3600".
Proof. reflexivity. Qed.

Example startIn_interval :
  createJob_startIn
    (mkPublishOptions (StartInStr "5 minutes") None None None None None None None None None)
  = "5 minutes".
Proof. reflexivity. Qed.

Example startIn_not_positive :
  createJob_startIn
    (mkPublishOptions (StartInNum (-2)) None None None None None None None None None)
  = "0".
Proof. reflexivity. Qed.

Example window_of_two_days :
  createJob_singletonSeconds
    (mkPublishOptions StartInAbsent None None None (Some 2) None None None None None)
  = Some 172800.
Proof. reflexivity. Qed.

Example payload_of_a_function : mapCompletionDataArg (VFunc 7) = VNull.
Proof. reflexivity. Qed.

Example payload_of_a_number : mapCompletionDataArg (VNum 42) = VObj [("value", VNum 42)].
Proof. reflexivity. Qed.

(** Scenario A of the specification. *)
Example email_round_trip_outcomes :
  Scenario.email_round_trip =
    [ Some (Resolved (VStr "job-0"));
      Some (Resolved (Scenario.job "job-0"));
      Some (Resolved (VObj [ ("jobs", VArr [VStr "job-0"]);
                             ("requested", VNum 1);
                             ("updated", VNum 1) ]));
      Some (Resolved VNull) ].
Proof. reflexivity. Qed.

(** [unsubscribe] of a name nobody subscribed to is a rejection. *)
Example unsubscribe_unknown :
  unsubscribe "email" (Scenario.boot []) =
    (Rejected (Reason (VStr "No subscriptions for email were found.")), Scenario.boot []).
Proof. reflexivity. Qed.

(** *** Completion calls *)

Lemma mapCompletionIdArg_accepts (id : JsVal) (f : string) (w : World Store) :
  truthy id = true -> as_array id <> [] ->
  mapCompletionIdArg id f w = (Resolved (as_array id), w).
Proof.
  intros Ht Hne. unfold mapCompletionIdArg, assertAsync, then_.
  rewrite Ht. cbn.
  destruct (as_array id) as [|x l]; [congruence | reflexivity].
Qed.

Lemma mapCompletionIdArg_refuses (id : JsVal) (f : string) (w : World Store) :
  truthy id = false \/ id = VArr [] ->
  mapCompletionIdArg id f w = (Rejected (AssertionError (f +:+ "() requires an id")), w).
Proof.
  intros [Hf | ->]; unfold mapCompletionIdArg, assertAsync, then_.
  - rewrite Hf. reflexivity.
  - reflexivity.
Qed.

(** A completion call with an id sends one command and maps its answer. *)
Lemma call_sends (c : CompletionCall) (id data : JsVal) (w : World Store) :
  truthy id = true -> as_array id <> [] ->
  call env c id data w =
    (match fst (db_executeSql env (command_of c) (values_of c id data) (store w)) with
     | inl reason => Rejected (Reason reason)
     | inr result => Resolved (mapCompletionResponse (as_array id) result)
     end,
     mkWorld (snd (db_executeSql env (command_of c) (values_of c id data) (store w)))
             (sql_log w ++ [(command_of c, values_of c id data)])
             (issued w) (subscriptions w) (workers w)).
Proof.
  intros Ht Hne.
  destruct c; cbn [call command_of values_of];
    unfold complete, fail, cancel, then_;
    rewrite (mapCompletionIdArg_accepts _ _ _ Ht Hne);
    unfold executeSql;
    destruct (db_executeSql env _ _ (store w)) as [[reason | result] s];
    reflexivity.
Qed.

(** A completion call without an id stops at the check of the id. *)
Lemma call_refuses (c : CompletionCall) (id data : JsVal) (w : World Store) :
  truthy id = false \/ id = VArr [] ->
  call env c id data w =
    (Rejected (AssertionError (funcName c +:+ "() requires an id")), w).
Proof.
  intros H.
  destruct c; cbn [call funcName]; unfold complete, fail, cancel, then_;
    rewrite (mapCompletionIdArg_refuses _ _ _ H); reflexivity.
Qed.

(** C4. [complete], [fail] and [cancel], when the store answers, resolve
    to an object with [jobs], [requested] and [updated]. Called with one
    id, truthy and not an array, [jobs] is the array of that one id and
    [requested] is 1; called with an array of ids that is not empty,
    [jobs] is that array and [requested] its length. In both [updated] is
    the row count the store reports, whatever it is; the store was sent
    the ids as an array, and with them the normalised payload unless the
    call is [cancel]. *)
Theorem completion_response (c : CompletionCall) (data : JsVal)
    (w : World Store) (result : SqlResult) (s : Store) :
  (forall id,
     truthy id = true -> (forall items, id <> VArr items) ->
     db_executeSql env (command_of c)
       (match c with
        | Cancel => [VArr [id]]
        | Complete | Fail => [VArr [id]; mapCompletionDataArg data]
        end) (store w) = (inr result, s) ->
     fst (call env c id data w) =
       Resolved (VObj [ ("jobs", VArr [id]);
                        ("requested", VNum 1);
                        ("updated", VNum (rowCount result)) ])) /\
  (forall items,
     items <> [] ->
     db_executeSql env (command_of c)
       (match c with
        | Cancel => [VArr items]
        | Complete | Fail => [VArr items; mapCompletionDataArg data]
        end) (store w) = (inr result, s) ->
     fst (call env c (VArr items) data w) =
       Resolved (VObj [ ("jobs", VArr items);
                        ("requested", VNum (Z.of_nat (length items)));
                        ("updated", VNum (rowCount result)) ])).
Proof.
  split.
  - intros id Ht Hnot Hdb.
    assert (Hids : as_array id = [id]).
    { destruct id; try reflexivity. exfalso. eapply Hnot. reflexivity. }
    rewrite (call_sends c id data w Ht) by (rewrite Hids; discriminate).
    assert (Hvalues : values_of c id data =
                      match c with
                      | Cancel => [VArr [id]]
                      | Complete | Fail => [VArr [id]; mapCompletionDataArg data]
                      end)
      by (destruct c; cbn [values_of]; rewrite Hids; reflexivity).
    rewrite Hvalues, Hdb, Hids. reflexivity.
  - intros items Hne Hdb.
    rewrite (call_sends c (VArr items) data w eq_refl Hne).
    assert (Hvalues : values_of c (VArr items) data =
                      match c with
                      | Cancel => [VArr items]
                      | Complete | Fail => [VArr items; mapCompletionDataArg data]
                      end)
      by (destruct c; reflexivity).
    rewrite Hvalues, Hdb. reflexivity.
Qed.

(** C9. [complete], [fail] and [cancel] called with a falsy id or with an
    empty array are rejected with the error "<op>() requires an id"; the
    process is left as it was: nothing is sent to the store. *)
Theorem completion_requires_id (c : CompletionCall) (id data : JsVal) (w : World Store) :
  truthy id = false \/ id = VArr [] ->
  call env c id data w =
    (Rejected (AssertionError (funcName c +:+ "() requires an id")), w) /\
  store (snd (call env c id data w)) = store w /\
  sql_log (snd (call env c id data w)) = sql_log w.
Proof.
  intros H. rewrite (call_refuses c id data w H). repeat split.
Qed.

(** C5. What [complete] and [fail] send to the store as the payload:
    [null] for a payload that is [null], left out or a function; the
    payload itself for an object that is not an array; [{value: v}] for a
    boolean, a number or a string [v]. *)
Theorem completion_payload (c : CompletionCall) (id data : JsVal) (w : World Store) :
  c <> Cancel -> truthy id = true -> as_array id <> [] ->
  exists stored : JsVal,
    sql_log (snd (call env c id data w)) =
      sql_log w ++ [(command_of c, [VArr (as_array id); stored])] /\
    (data = VNull \/ data = VUndefined \/ (exists tag, data = VFunc tag) ->
     stored = VNull) /\
    (forall props, data = VObj props -> stored = data) /\
    (is_scalar data = true -> stored = VObj [("value", data)]).
Proof.
  intros Hc Ht Hne. exists (mapCompletionDataArg data).
  rewrite (call_sends c id data w Ht Hne). cbn [snd sql_log].
  split; [destruct c; [reflexivity | reflexivity | congruence] |].
  split; [intros [-> | [-> | [tag ->]]]; reflexivity |].
  split; [intros props ->; reflexivity |].
  destruct data; cbn; intros H; solve [reflexivity | discriminate H].
Qed.

(** C10. A payload that is an array is sent to the store by [complete]
    and [fail] wrapped as [{value: array}]. *)
Theorem completion_payload_array (c : CompletionCall) (id : JsVal)
    (items : list JsVal) (w : World Store) :
  c <> Cancel -> truthy id = true -> as_array id <> [] ->
  mapCompletionDataArg (VArr items) = VObj [("value", VArr items)] /\
  sql_log (snd (call env c id (VArr items) w)) =
    sql_log w ++ [(command_of c, [VArr (as_array id); VObj [("value", VArr items)]])].
Proof.
  intros Hc Ht Hne. split; [reflexivity |].
  rewrite (call_sends c id (VArr items) w Ht Hne). cbn [snd sql_log].
  destruct c; [reflexivity | reflexivity | congruence].
Qed.

End Properties.

(** *** The completion calls on the scripted store *)

(** One id is completed, as a string, and the store updates it; two ids
    are completed and the store updates one of them: [requested] is 2
    and [updated] is 1. *)
Lemma completion_response_witness :
  fst (call Scenario.plain Complete (VStr "job-0") VUndefined
         (Scenario.boot [inr (mkSqlResult 1 [])])) =
    Resolved (VObj [ ("jobs", VArr [VStr "job-0"]);
                     ("requested", VNum 1);
                     ("updated", VNum 1) ]) /\
  fst (call Scenario.plain Complete (VArr [VStr "a"; VStr "b"]) VUndefined
         (Scenario.boot [inr (mkSqlResult 1 [])])) =
    Resolved (VObj [ ("jobs", VArr [VStr "a"; VStr "b"]);
                     ("requested", VNum 2);
                     ("updated", VNum 1) ]).
Proof.
  split.
  - apply (proj1 (completion_response Scenario.plain Complete VUndefined
                    (Scenario.boot [inr (mkSqlResult 1 [])]) (mkSqlResult 1 []) [])
                 (VStr "job-0"));
      [reflexivity | discriminate | reflexivity].
  - apply (proj2 (completion_response Scenario.plain Complete VUndefined
                    (Scenario.boot [inr (mkSqlResult 1 [])]) (mkSqlResult 1 []) [])
                 [VStr "a"; VStr "b"]);
      [discriminate | reflexivity].
Defined.

Lemma completion_requires_id_witness :
  call Scenario.plain Cancel (VArr []) VUndefined (Scenario.boot []) =
    (Rejected (AssertionError "cancel() requires an id"), Scenario.boot []).
Proof.
  apply (proj1 (completion_requires_id Scenario.plain Cancel (VArr []) VUndefined
                  (Scenario.boot []) (or_intror eq_refl))).
Defined.

Lemma completion_payload_witness :
  exists stored : JsVal,
    sql_log (snd (call Scenario.plain Fail (VStr "a") (VStr "boom") (Scenario.boot []))) =
      [] ++ [(failJobsCommand, [VArr [VStr "a"]; stored])] /\
    (VStr "boom" = VNull \/ VStr "boom" = VUndefined \/ (exists tag, VStr "boom" = VFunc tag) ->
     stored = VNull) /\
    (forall props, VStr "boom" = VObj props -> stored = VStr "boom") /\
    (is_scalar (VStr "boom") = true -> stored = VObj [("value", VStr "boom")]).
Proof.
  apply (completion_payload Scenario.plain Fail (VStr "a") (VStr "boom") (Scenario.boot []));
    [discriminate | reflexivity | discriminate].
Defined.

Lemma completion_payload_array_witness :
  mapCompletionDataArg (VArr [VNum 1; VNum 2]) = VObj [("value", VArr [VNum 1; VNum 2])] /\
  sql_log (snd (call Scenario.plain Complete (VStr "a") (VArr [VNum 1; VNum 2]) (Scenario.boot []))) =
    [] ++ [(completeJobsCommand, [VArr [VStr "a"]; VObj [("value", VArr [VNum 1; VNum 2])]])].
Proof.
  apply (completion_payload_array Scenario.plain Complete (VStr "a") [VNum 1; VNum 2] (Scenario.boot []));
    [discriminate | reflexivity | discriminate].
Defined.

(** *** Publishing *)

(** A resolved window is a positive number of seconds. *)
Lemma createJob_singletonSeconds_positive (options : PublishOptions) (n : Z) :
  createJob_singletonSeconds options = Some n -> 0 < n.
Proof.
  unfold createJob_singletonSeconds, num_gt0, num_mul.
  destruct (singletonSeconds options) as [a|], (singletonMinutes options) as [b|],
           (singletonHours options) as [c|], (singletonDays options) as [d|];
    repeat match goal with
           | |- context [0 <? ?x] => destruct (Z.ltb_spec 0 x)
           end;
    intros Heq; inversion Heq; subst; lia.
Qed.

(** The window is the same in the second round: [round2] leaves the four
    singleton options alone. *)
Lemma createJob_singletonSeconds_round2 (options : PublishOptions) (seconds : option Z) :
  createJob_singletonSeconds (round2 options seconds) = createJob_singletonSeconds options.
Proof. reflexivity. Qed.

Section Publishing.

Context {Store : Type}.
Variable env : Collaborators Store.

(** One unfolding of [createJob]. *)
Lemma createJob_unfold (fuel : nat) (name : string) (data : JsVal)
    (options : PublishOptions) (offset : option Z) (w : World Store) :
  createJob env (S fuel) name data options offset w =
    let id := uuid env (issued w) in
    let values := insert_values id name data options offset in
    match fst (db_executeSql env insertJobCommand values (store w)) with
    | inl reason => Some (Rejected (Reason reason), options, inserted env values w)
    | inr result =>
        if rowCount result =? 1 then Some (Resolved (VStr id), options, inserted env values w)
        else if negb (nextSlot_requested options)
             then Some (Resolved VNull, options, inserted env values w)
             else createJob env fuel name data
                    (round2 options (createJob_singletonSeconds options))
                    (createJob_singletonSeconds options) (inserted env values w)
    end.
Proof.
  cbn [createJob]. unfold next_id, executeSql, inserted. cbn [store sql_log issued subscriptions workers].
  destruct (db_executeSql env insertJobCommand _ (store w)) as [[reason | result] s];
    reflexivity.
Qed.

(** A call that does not ask for the next slot ends after one insert. *)
Lemma createJob_last_round (fuel : nat) (name : string) (data : JsVal)
    (options : PublishOptions) (offset : option Z) (w : World Store) :
  nextSlot_requested options = false ->
  let id := uuid env (issued w) in
  let values := insert_values id name data options offset in
  createJob env (S fuel) name data options offset w =
    Some (match fst (db_executeSql env insertJobCommand values (store w)) with
          | inl reason => Rejected (Reason reason)
          | inr result => if rowCount result =? 1 then Resolved (VStr id) else Resolved VNull
          end, options, inserted env values w).
Proof.
  intros Hno. cbv zeta. rewrite createJob_unfold. cbv zeta. rewrite Hno. cbn [negb].
  destruct (fst (db_executeSql env insertJobCommand _ (store w))) as [reason | result];
    [reflexivity |].
  destruct (rowCount result =? 1); reflexivity.
Qed.

(** Two levels of calls are all [createJob] ever uses. *)
Lemma createJob_two_rounds (fuel : nat) (name : string) (data : JsVal)
    (options : PublishOptions) (offset : option Z) (w : World Store) :
  let seconds := createJob_singletonSeconds options in
  let first := insert_values (uuid env (issued w)) name data options offset in
  let id2 := uuid env (S (issued w)) in
  let second := insert_values id2 name data (round2 options seconds) seconds in
  createJob env (S (S fuel)) name data options offset w =
    match fst (db_executeSql env insertJobCommand first (store w)) with
    | inl reason => Some (Rejected (Reason reason), options, inserted env first w)
    | inr result =>
        if rowCount result =? 1
        then Some (Resolved (VStr (uuid env (issued w))), options, inserted env first w)
        else if negb (nextSlot_requested options)
        then Some (Resolved VNull, options, inserted env first w)
        else Some (match fst (db_executeSql env insertJobCommand second
                                (store (inserted env first w))) with
                   | inl reason => Rejected (Reason reason)
                   | inr result2 =>
                       if rowCount result2 =? 1 then Resolved (VStr id2) else Resolved VNull
                   end,
                   round2 options seconds,
                   inserted env second (inserted env first w))
    end.
Proof.
  cbv zeta. rewrite createJob_unfold. cbv zeta.
  destruct (fst (db_executeSql env insertJobCommand _ (store w))) as [reason | result];
    [reflexivity |].
  destruct (rowCount result =? 1); [reflexivity |].
  destruct (negb (nextSlot_requested options)); [reflexivity |].
  rewrite createJob_last_round by reflexivity. reflexivity.
Qed.

(** C1. [createJob] never nests deeper than one retry: with room for two
    levels of calls it returns, for every input, having sent one or two
    inserts and nothing else, and so does [publish]. When the first
    insert affects no row (any count but 1) and [singletonNextSlot] is
    requested, the options are left with [singletonNextSlot] false and
    [startIn] set to the resolved [singletonSeconds], the other options
    untouched, and exactly one more insert is sent, under a new id, with
    [singletonSeconds] as its offset and as its start delay (offset 0
    and delay '0' when no window is configured); its answer settles the
    call. *)
Theorem createJob_retries_once (name : string) (data : JsVal)
    (options : PublishOptions) (offset : option Z) (w : World Store) :
  (exists outcome options' w',
      (forall fuel, (2 <= fuel)%nat ->
         createJob env fuel name data options offset w = Some (outcome, options', w')) /\
      exists sent,
        sql_log w' = sql_log w ++ sent /\
        (1 <= length sent <= 2)%nat /\
        Forall (fun cv => fst cv = insertJobCommand) sent) /\
  (forall args, exists outcome w',
      (forall fuel, (2 <= fuel)%nat -> publish env fuel args w = Some (outcome, w')) /\
      (length (sql_log w') <= length (sql_log w) + 2)%nat) /\
  (forall result s,
      let seconds := createJob_singletonSeconds options in
      let first := insert_values (uuid env (issued w)) name data options offset in
      let options2 :=
        mkPublishOptions
          (match seconds with Some n => StartInNum n | None => StartInNull end)
          (singletonSeconds options) (singletonMinutes options)
          (singletonHours options) (singletonDays options)
          (retryLimit options) (expireIn options) (priority options)
          (singletonKey options) (Some false) in
      let id2 := uuid env (S (issued w)) in
      let second := insert_values id2 name data options2 seconds in
      db_executeSql env insertJobCommand first (store w) = (inr result, s) ->
      rowCount result <> 1 ->
      nextSlot_requested options = true ->
      forall fuel, (2 <= fuel)%nat ->
        createJob env fuel name data options offset w =
          Some (match fst (db_executeSql env insertJobCommand second s) with
                | inl reason => Rejected (Reason reason)
                | inr result2 =>
                    if rowCount result2 =? 1 then Resolved (VStr id2) else Resolved VNull
                end,
                options2,
                mkWorld (snd (db_executeSql env insertJobCommand second s))
                        (sql_log w ++ [(insertJobCommand, first); (insertJobCommand, second)])
                        (S (S (issued w))) (subscriptions w) (workers w)) /\
        second !! 4%nat =
          Some (VStr (match seconds with Some n => Number_toString n | None => "0" end)) /\
        second !! 9%nat = Some (VNum (match seconds with Some n => n | None => 0 end))).
Proof.
  assert (Hbound : exists outcome options' w',
      (forall fuel, (2 <= fuel)%nat ->
         createJob env fuel name data options offset w = Some (outcome, options', w')) /\
      exists sent,
        sql_log w' = sql_log w ++ sent /\
        (1 <= length sent <= 2)%nat /\
        Forall (fun cv => fst cv = insertJobCommand) sent).
  { pose proof (fun fuel => createJob_two_rounds fuel name data options offset w) as H2.
    cbv zeta in H2.
    destruct (fst (db_executeSql env insertJobCommand _ (store w))) as [reason | result].
    2: destruct (rowCount result =? 1).
    3: destruct (negb (nextSlot_requested options)).
    all: eexists _, _, _; split;
      [ intros [|[|fuel]] Hf; [lia | lia | apply H2] | ].
    1-3: eexists [_]; cbn; repeat split; [lia | lia | repeat constructor].
    eexists [_; _]; cbn. rewrite <- app_assoc. cbn.
    repeat split; [lia | lia | repeat constructor]. }
  split; [exact Hbound |]. split.
  - intros args. unfold publish.
    destruct (checkPublishArgs env args) as [e | [[name' data'] options']].
    + exists (Rejected e), w. split; [reflexivity | lia].
    + clear Hbound.
      pose proof (fun fuel => createJob_two_rounds fuel name' data' options' None w) as H2.
      cbv zeta in H2.
      destruct (fst (db_executeSql env insertJobCommand _ (store w))) as [reason | result].
      2: destruct (rowCount result =? 1).
      3: destruct (negb (nextSlot_requested options')).
      all: eexists _, _; split;
        [ intros [|[|fuel]] Hf; [lia | lia | rewrite H2; reflexivity] | ].
      all: cbn; rewrite ?length_app; cbn; lia.
  - intros result s seconds first options2 id2 second Hdb Hrow Hnext fuel Hfuel.
    split; [| split].
    + destruct fuel as [|[|fuel]]; [lia | lia |].
      rewrite createJob_two_rounds. cbv zeta.
      fold first. rewrite Hdb. cbn [fst].
      destruct (Z.eqb_spec (rowCount result) 1) as [Heq | _]; [contradiction |].
      rewrite Hnext. cbn [negb].
      unfold inserted. fold first. rewrite Hdb.
      cbn [store sql_log issued subscriptions workers snd].
      rewrite <- app_assoc. reflexivity.
    + subst second. cbn. unfold createJob_startIn. cbn.
      destruct seconds as [n|] eqn:Hs; [| reflexivity].
      apply createJob_singletonSeconds_positive in Hs.
      destruct (Z.ltb_spec 0 n); [reflexivity | lia].
    + subst second. cbn.
      destruct seconds as [n|] eqn:Hs; [| reflexivity].
      apply createJob_singletonSeconds_positive in Hs.
      cbn. destruct (Z.eqb_spec n 0); [lia | reflexivity].
Qed.

(** C2. When the insert affects no row and [singletonNextSlot] is not
    requested, [publish] resolves to [null]: one insert was sent, no
    error is raised. *)
Theorem publish_conflict_null (fuel : nat) (args : list JsVal) (name : string)
    (data : JsVal) (options : PublishOptions) (w : World Store)
    (result : SqlResult) (s : Store) :
  let values := insert_values (uuid env (issued w)) name data options None in
  checkPublishArgs env args = inr (name, data, options) ->
  nextSlot_requested options = false ->
  db_executeSql env insertJobCommand values (store w) = (inr result, s) ->
  rowCount result = 0 ->
  publish env (S fuel) args w =
    Some (Resolved VNull,
          mkWorld s (sql_log w ++ [(insertJobCommand, values)])
                  (S (issued w)) (subscriptions w) (workers w)).
Proof.
  intros values Hargs Hno Hdb Hrow. unfold publish. rewrite Hargs.
  rewrite createJob_last_round by exact Hno. cbv zeta. fold values.
  unfold inserted. rewrite Hdb. cbn [fst snd]. rewrite Hrow. reflexivity.
Qed.

End Publishing.

(** C8, as stated, fails: with [singletonSeconds] set to 0, or to -30,
    and [singletonMinutes] to 1 the first set member is
    [singletonSeconds], yet the window is the 60 seconds of
    [singletonMinutes]. *)
Lemma singletonSeconds_first_set_counterexample :
  let zero :=
    mkPublishOptions StartInAbsent (Some 0) (Some 1) None None None None None None None in
  let negative :=
    mkPublishOptions StartInAbsent (Some (-30)) (Some 1) None None None None None None None in
  first_set (window_members zero) = Some 0 /\
  createJob_singletonSeconds zero = Some 60 /\
  createJob_singletonSeconds zero <> first_set (window_members zero) /\
  first_set (window_members negative) = Some (-30) /\
  createJob_singletonSeconds negative = Some 60 /\
  createJob_singletonSeconds negative <> first_set (window_members negative).
Proof. cbn. repeat split; discriminate. Qed.

Lemma first_positive_None (members : list (option Z * Z)) :
  first_positive members = None <->
  Forall (fun m => num_gt0 (fst m) = false) members.
Proof.
  induction members as [| [a k] rest IH]; cbn [first_positive].
  - split; [constructor | reflexivity].
  - destruct (num_gt0 a) eqn:Ha.
    + destruct a as [n|]; [| discriminate Ha]. cbn [num_mul].
      split; [discriminate |].
      intros Hall. inversion Hall as [| ? ? Hhead _]; subst.
      cbn [fst] in Hhead. congruence.
    + rewrite IH. split.
      * intros Hall. constructor; [exact Ha | exact Hall].
      * intros Hall. inversion Hall; subst. assumption.
Qed.

Lemma first_positive_first_set (members : list (option Z * Z)) :
  Forall (fun m => fst m = None \/ num_gt0 (fst m) = true) members ->
  first_positive members = first_set members.
Proof.
  induction 1 as [| [a k] rest Hhead _ IH]; [reflexivity |].
  cbn [fst] in Hhead. cbn [first_positive first_set].
  destruct Hhead as [-> | Hpos].
  - cbn [num_gt0]. exact IH.
  - rewrite Hpos. destruct a as [n|]; [reflexivity | discriminate Hpos].
Qed.

Lemma createJob_singletonSeconds_members (options : PublishOptions) :
  createJob_singletonSeconds options = first_positive (window_members options).
Proof.
  unfold createJob_singletonSeconds, window_members. cbn [first_positive].
  destruct (num_gt0 (singletonSeconds options)) eqn:Hs.
  { destruct (singletonSeconds options) as [n|]; [| discriminate Hs].
    cbn [num_mul]. f_equal. lia. }
  destruct (num_gt0 (singletonMinutes options)); [reflexivity |].
  destruct (num_gt0 (singletonHours options)).
  { destruct (singletonHours options) as [n|]; [| reflexivity].
    cbn [num_mul]. f_equal. lia. }
  destruct (num_gt0 (singletonDays options)); [| reflexivity].
  destruct (singletonDays options) as [n|]; [| reflexivity].
  cbn [num_mul]. f_equal. lia.
Qed.

(** C8, amended. The window [createJob] resolves is the first of
    [singletonSeconds], [singletonMinutes]*60, [singletonHours]*3600 and
    [singletonDays]*86400, in this order, whose option is greater than
    zero; it is [null] exactly when none is greater than zero; it is what
    the insert carries as its window. Where every option that is set is
    greater than zero this is the first set member. *)
Theorem singletonSeconds_first_positive (options : PublishOptions) :
  createJob_singletonSeconds options = first_positive (window_members options) /\
  (createJob_singletonSeconds options = None <->
   Forall (fun m => num_gt0 (fst m) = false) (window_members options)) /\
  (forall id name data offset,
     insert_values id name data options offset !! 8%nat =
       Some (of_num (createJob_singletonSeconds options))) /\
  (Forall (fun m => fst m = None \/ num_gt0 (fst m) = true) (window_members options) ->
   createJob_singletonSeconds options = first_set (window_members options)).
Proof.
  split; [apply createJob_singletonSeconds_members |].
  split; [rewrite createJob_singletonSeconds_members; apply first_positive_None |].
  split; [reflexivity |].
  intros Hall. rewrite createJob_singletonSeconds_members.
  apply first_positive_first_set, Hall.
Qed.

(** *** Publishing on the scripted store *)

(** The slot is taken and the next one is free: the second insert is
    the one that creates the job. *)
Lemma createJob_retries_once_witness :
  createJob (Scenario.collaborators Scenario.hourly Scenario.no_subscribe_options) 2
            "report" VNull Scenario.hourly None
            (Scenario.boot [inr (mkSqlResult 0 []); inr (mkSqlResult 1 [])]) =
    Some (Resolved (VStr "job-1"), Scenario.hourly_round2,
          mkWorld []
            [ (insertJobCommand, insert_values "job-0" "report" VNull Scenario.hourly None);
              (insertJobCommand, insert_values "job-1" "report" VNull Scenario.hourly_round2 (Some 3600)) ]
            2%nat ∅ []).
Proof.
  apply (proj1 (proj2 (proj2
           (createJob_retries_once
              (Scenario.collaborators Scenario.hourly Scenario.no_subscribe_options)
              "report" VNull Scenario.hourly None
              (Scenario.boot [inr (mkSqlResult 0 []); inr (mkSqlResult 1 [])])))
           (mkSqlResult 0 []) [inr (mkSqlResult 1 [])]
           eq_refl ltac:(discriminate) eq_refl 2%nat (le_n 2))).
Defined.

(** Scenario B of the specification: the slot is taken and no next slot
    is asked for. *)
Lemma publish_conflict_null_witness :
  publish (Scenario.collaborators Scenario.no_options Scenario.no_subscribe_options) 1
          [VStr "report"; VNull] (Scenario.boot [inr (mkSqlResult 0 [])]) =
    Some (Resolved VNull,
          mkWorld []
            [(insertJobCommand, insert_values "job-0" "report" VNull Scenario.no_options None)]
            1%nat ∅ []).
Proof.
  apply (publish_conflict_null
           (Scenario.collaborators Scenario.no_options Scenario.no_subscribe_options)
           0 [VStr "report"; VNull] "report" VNull Scenario.no_options
           (Scenario.boot [inr (mkSqlResult 0 [])]) (mkSqlResult 0 []) []);
    reflexivity.
Defined.

(** *** Fetching *)

Section Fetching.

Context {Store : Type}.
Variable env : Collaborators Store.

(** The limit [fetch] hands to the store: [batchSize || 1]. *)
Lemma num_or_default_limit (b : option Z) :
  num_or_default b 1 = match b with Some n => if n =? 0 then 1 else n | None => 1 end.
Proof. reflexivity. Qed.

(** A fetch whose arguments pass the check sends one command and maps
    the rows it gets. *)
Lemma fetch_sends (name : JsVal) (b : option Z) (w : World Store) :
  checkFetchArgs env (as_array name) b = inr tt ->
  let values := [VArr (as_array name); VNum (num_or_default b 1)] in
  fetch env name b w =
    (match fst (db_executeSql env nextJobCommand values (store w)) with
     | inl reason => Rejected (Reason reason)
     | inr result =>
         Resolved (if Nat.eqb (length (rows result)) 0 then VNull
                   else if Nat.eqb (length (rows result)) 1 && negb (num_truthy b)
                        then nth 0 (rows result) VUndefined
                        else VArr (rows result))
     end,
     mkWorld (snd (db_executeSql env nextJobCommand values (store w)))
             (sql_log w ++ [(nextJobCommand, values)])
             (issued w) (subscriptions w) (workers w)).
Proof.
  intros Hcheck. cbv zeta. unfold fetch, then_, checked. rewrite Hcheck.
  unfold Promise_resolve, executeSql.
  destruct (db_executeSql env nextJobCommand _ (store w)) as [[reason | result] s];
    reflexivity.
Qed.

(** C3, amended. A fetch that passes the check and that the store
    answers: when [batchSize] is left out or 0 it resolves to the job
    itself if the store returns one row and to [null] if it returns
    none; when [batchSize] is given and not 0 it resolves to the array of
    the returned rows, to [null] if there is none, and the array is no
    longer than [batchSize] whenever the store keeps to the limit it was
    sent. *)
Theorem fetch_contract (name : JsVal) (b : option Z) (w : World Store)
    (result : SqlResult) (s : Store) :
  let limit := match b with Some n => if n =? 0 then 1 else n | None => 1 end in
  let outcome := fst (fetch env name b w) in
  checkFetchArgs env (as_array name) b = inr tt ->
  db_executeSql env nextJobCommand [VArr (as_array name); VNum limit] (store w)
    = (inr result, s) ->
  (b = None \/ b = Some 0 ->
     (rows result = [] -> outcome = Resolved VNull) /\
     (forall job, rows result = [job] -> outcome = Resolved job)) /\
  (forall n, b = Some n -> n <> 0 ->
     (rows result = [] -> outcome = Resolved VNull) /\
     (rows result <> [] -> outcome = Resolved (VArr (rows result))) /\
     (Z.of_nat (length (rows result)) <= limit ->
      Z.of_nat (length (rows result)) <= n)).
Proof.
  intros limit outcome Hcheck Hdb. subst outcome.
  rewrite (fetch_sends name b w Hcheck). cbv zeta.
  rewrite num_or_default_limit. fold limit. rewrite Hdb. cbn [fst].
  split.
  - intros Hb. assert (Hfalsy : num_truthy b = false) by (destruct Hb as [-> | ->]; reflexivity).
    rewrite Hfalsy. split.
    + intros ->. reflexivity.
    + intros job ->. reflexivity.
  - intros n -> Hn.
    assert (Htruthy : num_truthy (Some n) = true).
    { cbn. destruct (Z.eqb_spec n 0); [contradiction | reflexivity]. }
    rewrite Htruthy. cbn [negb]. rewrite andb_false_r.
    split; [intros ->; reflexivity |].
    split.
    + intros Hrows. destruct (rows result); [contradiction | reflexivity].
    + subst limit. cbn. destruct (Z.eqb_spec n 0); [contradiction | trivial].
Qed.

End Fetching.

(** C3, as stated, fails: a [batchSize] of 0 is given, the store is asked
    for one job and returns it, and [fetch] resolves to the job itself,
    not to an array. *)
Lemma fetch_batchSize_zero_counterexample :
  let w := Scenario.boot [inr (mkSqlResult 1 [Scenario.job "job-0"])] in
  fetch Scenario.plain (VStr "email") (Some 0) w =
    (Resolved (Scenario.job "job-0"),
     mkWorld [] [(nextJobCommand, [VArr [VStr "email"]; VNum 1])] 0%nat ∅ []) /\
  fst (fetch Scenario.plain (VStr "email") (Some 0) w)
    <> Resolved (VArr [Scenario.job "job-0"]).
Proof. split; [reflexivity | discriminate]. Qed.

(** [fetch(name, 5)] when the store returns two rows. *)
Lemma fetch_contract_witness :
  let w := Scenario.boot
             [inr (mkSqlResult 2 [Scenario.job "job-0"; Scenario.job "job-1"])] in
  fst (fetch Scenario.plain (VStr "email") (Some 5) w) =
    Resolved (VArr [Scenario.job "job-0"; Scenario.job "job-1"]).
Proof.
  intros w.
  apply (proj1 (proj2 (proj2
           (fetch_contract Scenario.plain (VStr "email") (Some 5) w
              (mkSqlResult 2 [Scenario.job "job-0"; Scenario.job "job-1"]) []
              eq_refl eq_refl) 5 eq_refl ltac:(discriminate)))).
  discriminate.
Defined.

(** *** Subscriptions *)

Section Subscribing.

Context {Store : Type}.
Variable env : Collaborators Store.

Lemma watch_taken (name : string) (options : SubscribeOptions) (callback : JsVal)
    (w : World Store) :
  has_property (subscriptions w) name = true ->
  watch env name options callback w = (Thrown (AssertionError already_subscribed), w).
Proof. intros H. unfold watch. rewrite H. reflexivity. Qed.

Lemma watch_free (name : string) (options : SubscribeOptions) (callback : JsVal)
    (w : World Store) :
  has_property (subscriptions w) name = false ->
  watch env name options callback w =
    match watch_options env options with
    | inl e => (Thrown e, w)
    | inr options2 =>
        (Resolved (VBool true),
         mkWorld (store w) (sql_log w) (issued w)
                 (<[name := length (workers w)]> (subscriptions w))
                 (workers w ++ [mkWorker name options2 callback true]))
    end.
Proof. intros H. unfold watch. rewrite H. reflexivity. Qed.

Lemma has_property_registered (subs : gmap string nat) (name : string) :
  is_Some (subs !! name) -> has_property subs name = true.
Proof.
  intros H. unfold has_property. rewrite bool_decide_eq_true_2 by exact H. reflexivity.
Qed.

Lemma has_property_free (subs : gmap string nat) (name : string) :
  has_property subs name = false -> subs !! name = None.
Proof.
  unfold has_property. intros H. apply orb_false_elim in H as [H _].
  apply bool_decide_eq_false in H. destruct (subs !! name); [| reflexivity].
  exfalso. apply H. eauto.
Qed.

(** What a call through [Attorney.checkSubscribeArgs] and [watch] does. *)
Lemma checked_watch (name target : string) (args : list JsVal) (w : World Store) :
  then_ (checked (checkSubscribeArgs env name args))
        (fun oc => watch env target (fst oc) (snd oc)) w =
    match checkSubscribeArgs env name args with
    | inl e => (Rejected e, w)
    | inr (options, callback) =>
        match watch env target options callback w with
        | (Thrown e, w') => (Rejected e, w')
        | r => r
        end
    end.
Proof.
  unfold then_, checked.
  destruct (checkSubscribeArgs env name args) as [e | [options callback]]; reflexivity.
Qed.

(** A name that is registered cannot be subscribed to again. *)
Lemma checked_watch_taken (name target : string) (args : list JsVal) (w : World Store) :
  is_Some (subscriptions w !! target) ->
  exists e,
    then_ (checked (checkSubscribeArgs env name args))
          (fun oc => watch env target (fst oc) (snd oc)) w = (Rejected e, w).
Proof.
  intros H. rewrite checked_watch.
  destruct (checkSubscribeArgs env name args) as [e | [options callback]].
  - exists e. reflexivity.
  - rewrite watch_taken by (apply has_property_registered, H). eauto.
Qed.

(** A subscription that succeeds registers one new running worker, whose
    options are those [watch] ended with. *)
Lemma checked_watch_resolved (name target : string) (args : list JsVal)
    (options : SubscribeOptions) (callback v : JsVal) (w w' : World Store) :
  checkSubscribeArgs env name args = inr (options, callback) ->
  then_ (checked (checkSubscribeArgs env name args))
        (fun oc => watch env target (fst oc) (snd oc)) w = (Resolved v, w') ->
  exists options2,
    watch_options env options = inr options2 /\
    subscriptions w !! target = None /\
    w' = mkWorld (store w) (sql_log w) (issued w)
                 (<[target := length (workers w)]> (subscriptions w))
                 (workers w ++ [mkWorker target options2 callback true]).
Proof.
  intros Hargs. rewrite checked_watch, Hargs.
  destruct (has_property (subscriptions w) target) eqn:Hp.
  - rewrite watch_taken by exact Hp. discriminate.
  - rewrite watch_free by exact Hp.
    destruct (watch_options env options) as [e | options2]; [discriminate |].
    intros Heq. inversion Heq; subst. exists options2.
    repeat split. apply has_property_free, Hp.
Qed.

(** The batch size [watch] ends with when none was given. *)
Lemma watch_options_batchSize (options options2 : SubscribeOptions) :
  (forall o o', applyNewJobCheckInterval env o = inr o' -> batchSize o' = batchSize o) ->
  batchSize options = None ->
  watch_options env options = inr options2 ->
  batchSize options2 = teamSize options.
Proof.
  intros Hkeep Hnone. unfold watch_options. rewrite Hnone. cbn [num_or num_truthy].
  destruct (_ || _).
  - intros H. apply Hkeep in H. exact H.
  - intros H. inversion H. reflexivity.
Qed.

(** What the worker of a new subscription fetches with. *)
Lemma poller_batch (name target : string) (args : list JsVal)
    (options : SubscribeOptions) (callback v : JsVal) (w w' : World Store) :
  checkSubscribeArgs env name args = inr (options, callback) ->
  batchSize options = None ->
  (forall o o', applyNewJobCheckInterval env o = inr o' -> batchSize o' = batchSize o) ->
  then_ (checked (checkSubscribeArgs env name args))
        (fun oc => watch env target (fst oc) (snd oc)) w = (Resolved v, w') ->
  exists worker,
    subscriptions w' !! target = Some (length (workers w)) /\
    workers w' !! length (workers w) = Some worker /\
    w_running worker = true /\
    Worker_fetch env worker = fetch env (VStr target) (teamSize options) /\
    forall w2,
      checkFetchArgs env [VStr target] (teamSize options) = inr tt ->
      sql_log (snd (Worker_fetch env worker w2)) =
        sql_log w2 ++
        [(nextJobCommand,
          [VArr [VStr target];
           VNum (match teamSize options with
                 | Some t => if t =? 0 then 1 else t
                 | None => 1
                 end)])].
Proof.
  intros Hargs Hnone Hkeep Hrun.
  destruct (checked_watch_resolved name target args options callback v w w' Hargs Hrun)
    as (options2 & Hopts & _ & ->).
  pose proof (watch_options_batchSize options options2 Hkeep Hnone Hopts) as Hbatch.
  exists (mkWorker target options2 callback true).
  cbn [subscriptions workers w_running].
  split; [apply lookup_insert_eq |].
  split; [rewrite lookup_app_r, Nat.sub_diag by lia; reflexivity |].
  split; [reflexivity |].
  assert (Hfetch : Worker_fetch env (mkWorker target options2 callback true) =
                   fetch env (VStr target) (teamSize options)).
  { unfold Worker_fetch. cbn [w_name w_options]. rewrite Hbatch. reflexivity. }
  split; [exact Hfetch |].
  intros w2 Hcheck. rewrite Hfetch.
  rewrite (fetch_sends env (VStr target) (teamSize options) w2 Hcheck).
  reflexivity.
Qed.

(** C6, amended. A [subscribe] or [onComplete] whose options leave
    [batchSize] out, once it has succeeded, holds a running worker under
    the name (the completion name for [onComplete]) whose every fetch is
    [fetch(name, teamSize)]: it asks the store for [teamSize] jobs when
    [teamSize] is there and is not 0, and for 1 job when [teamSize] is
    left out or is 0. The interval options are taken to be resolved by
    [Attorney] without touching [batchSize]. *)
Theorem subscription_batch_size (name : string) (args : list JsVal)
    (options : SubscribeOptions) (callback : JsVal) (w : World Store) :
  checkSubscribeArgs env name args = inr (options, callback) ->
  batchSize options = None ->
  (forall o o', applyNewJobCheckInterval env o = inr o' -> batchSize o' = batchSize o) ->
  forall (call : string -> list JsVal -> Promise JsVal) (target : string),
    (call = subscribe env /\ target = name) \/
    (call = onComplete env /\ target = name +:+ completedJobSuffix env) ->
    forall v w', call name args w = (Resolved v, w') ->
    exists worker,
      subscriptions w' !! target = Some (length (workers w)) /\
      workers w' !! length (workers w) = Some worker /\
      w_running worker = true /\
      Worker_fetch env worker = fetch env (VStr target) (teamSize options) /\
      (forall t, teamSize options = Some t -> t <> 0 ->
         forall w2, checkFetchArgs env [VStr target] (Some t) = inr tt ->
           sql_log (snd (Worker_fetch env worker w2)) =
             sql_log w2 ++ [(nextJobCommand, [VArr [VStr target]; VNum t])]) /\
      (teamSize options = None \/ teamSize options = Some 0 ->
         forall w2, checkFetchArgs env [VStr target] (teamSize options) = inr tt ->
           sql_log (snd (Worker_fetch env worker w2)) =
             sql_log w2 ++ [(nextJobCommand, [VArr [VStr target]; VNum 1])]).
Proof.
  intros Hargs Hnone Hkeep call target Hcall v w' Hrun.
  assert (Hthen : then_ (checked (checkSubscribeArgs env name args))
                        (fun oc => watch env target (fst oc) (snd oc)) w
                  = (Resolved v, w')).
  { destruct Hcall as [[-> ->] | [-> ->]]; exact Hrun. }
  destruct (poller_batch name target args options callback v w w' Hargs Hnone Hkeep Hthen)
    as (worker & Hsub & Hworker & Hrunning & Hfetch & Hlog).
  exists worker. repeat (split; [assumption |]).
  split.
  - intros t Ht Hne w2 Hcheck. rewrite Ht in Hlog.
    rewrite (Hlog w2 Hcheck). destruct (Z.eqb_spec t 0); [contradiction | reflexivity].
  - intros Hteam w2 Hcheck. rewrite (Hlog w2 Hcheck).
    destruct Hteam as [-> | ->]; reflexivity.
Qed.

End Subscribing.

(** C6, as stated, fails: with a [teamSize] of 0 and no [batchSize],
    [watch] registers a worker that fetches with a batch size of 0 and
    asks the store for 1 job, not for [teamSize] jobs; so does
    [subscribe] when the check hands the options on as they are. *)
Lemma teamSize_zero_counterexample :
  let worker :=
    mkWorker "email"
      (mkSubscribeOptions (Some 0) (Some 0) (Some 1000) None) (VFunc 0) true in
  watch Scenario.plain "email" (Scenario.team 0) (VFunc 0) (Scenario.boot []) =
    (Resolved (VBool true), mkWorld [] [] 0%nat {["email" := 0%nat]} [worker]) /\
  subscribe (Scenario.collaborators Scenario.no_options (Scenario.team 0))
            "email" [VFunc 0] (Scenario.boot []) =
    (Resolved (VBool true), mkWorld [] [] 0%nat {["email" := 0%nat]} [worker]) /\
  sql_log (snd (Worker_fetch Scenario.plain worker (Scenario.boot []))) =
    [(nextJobCommand, [VArr [VStr "email"]; VNum 1])] /\
  teamSize (Scenario.team 0) = Some 0 /\
  VNum 1 <> VNum 0.
Proof.
  cbv zeta. repeat split; try reflexivity. discriminate.
Qed.

(** A team of three subscribes: its worker asks the store for three jobs. *)
Lemma subscription_batch_size_witness :
  exists worker,
    workers (snd (subscribe (Scenario.collaborators Scenario.no_options (Scenario.team 3))
                            "email" [VFunc 0] (Scenario.boot []))) !! 0%nat = Some worker /\
    sql_log (snd (Worker_fetch (Scenario.collaborators Scenario.no_options (Scenario.team 3))
                    worker (Scenario.boot []))) =
      [(nextJobCommand, [VArr [VStr "email"]; VNum 3])].
Proof.
  destruct (subscription_batch_size
              (Scenario.collaborators Scenario.no_options (Scenario.team 3))
              "email" [VFunc 0] (Scenario.team 3) (VFunc 0) (Scenario.boot [])
              eq_refl eq_refl
              (fun o o' H => f_equal batchSize
                               (eq_sym (f_equal (fun r => match r with
                                                          | inr x => x
                                                          | inl _ => o
                                                          end) H)))
              (subscribe (Scenario.collaborators Scenario.no_options (Scenario.team 3)))
              "email" (or_introl (conj eq_refl eq_refl))
              (VBool true)
              (snd (subscribe (Scenario.collaborators Scenario.no_options (Scenario.team 3))
                              "email" [VFunc 0] (Scenario.boot [])))
              eq_refl)
    as (worker & _ & Hworker & _ & _ & Hlog & _).
  exists worker. split; [exact Hworker |].
  exact (Hlog 3 eq_refl ltac:(discriminate) (Scenario.boot []) eq_refl).
Defined.

(** *** One poller per name *)

Section Registry.

Context {Store : Type}.
Variable env : Collaborators Store.

Lemma same_registry_consistent (w w' : World Store) :
  same_registry w w' -> registry_consistent w -> registry_consistent w'.
Proof.
  intros [Hs Hw] [H1 H2]. unfold registry_consistent, poller_of.
  rewrite Hs, Hw. split; assumption.
Qed.

Lemma same_registry_refl (w : World Store) : same_registry w w.
Proof. split; reflexivity. Qed.

(** The calls that only talk to the store leave the registry alone. *)
Lemma fetch_same_registry (name : JsVal) (b : option Z) (w : World Store) :
  same_registry w (snd (fetch env name b w)).
Proof.
  unfold fetch, then_, checked, executeSql, Promise_resolve, Promise_reject.
  destruct (checkFetchArgs env (as_array name) b) as [e | []]; [apply same_registry_refl |].
  destruct (db_executeSql env nextJobCommand _ (store w)) as [[reason | result] s];
    split; reflexivity.
Qed.

Lemma call_same_registry (c : CompletionCall) (id data : JsVal) (w : World Store) :
  same_registry w (snd (call env c id data w)).
Proof.
  destruct (truthy id) eqn:Ht.
  - destruct (as_array id) as [| x ids] eqn:Hids.
    + destruct c; cbn [call]; unfold complete, fail, cancel, then_, mapCompletionIdArg,
        assertAsync, then_; rewrite Ht, Hids; apply same_registry_refl.
    + rewrite call_sends by (rewrite ?Hids; congruence). split; reflexivity.
  - rewrite call_refuses by (left; exact Ht). apply same_registry_refl.
Qed.

Lemma inserted_same_registry (values : list JsVal) (w : World Store) :
  same_registry w (inserted env values w).
Proof. split; reflexivity. Qed.

Lemma createJob_same_registry (fuel : nat) :
  forall name data options offset (w : World Store) outcome options' w',
    createJob env fuel name data options offset w = Some (outcome, options', w') ->
    same_registry w w'.
Proof.
  induction fuel as [| fuel IH]; intros name data options offset w outcome options' w'.
  - discriminate.
  - rewrite createJob_unfold. cbv zeta.
    destruct (fst (db_executeSql env insertJobCommand _ (store w))) as [reason | result].
    { intros H; inversion H; subst. apply inserted_same_registry. }
    destruct (rowCount result =? 1).
    { intros H; inversion H; subst. apply inserted_same_registry. }
    destruct (negb (nextSlot_requested options)).
    { intros H; inversion H; subst. apply inserted_same_registry. }
    intros H. apply IH in H. destruct H as [Hs Hw]. split; assumption.
Qed.

Lemma publish_same_registry (fuel : nat) (args : list JsVal) (w : World Store)
    (outcome : Settled JsVal) (w' : World Store) :
  publish env fuel args w = Some (outcome, w') -> same_registry w w'.
Proof.
  unfold publish.
  destruct (checkPublishArgs env args) as [e | [[name data] options]].
  - intros H; inversion H; subst. apply same_registry_refl.
  - destruct (createJob env fuel name data options None w) as [[[o options'] w1] |] eqn:Hc;
      [| discriminate].
    intros H; inversion H; subst. eapply createJob_same_registry, Hc.
Qed.

(** A new subscription keeps the registry and the workers in agreement. *)
Lemma checked_watch_consistent (name target : string) (args : list JsVal) (w : World Store) :
  registry_consistent w ->
  registry_consistent
    (snd (then_ (checked (checkSubscribeArgs env name args))
                (fun oc => watch env target (fst oc) (snd oc)) w)).
Proof.
  intros Hinv. rewrite checked_watch.
  destruct (checkSubscribeArgs env name args) as [e | [options callback]]; [exact Hinv |].
  destruct (has_property (subscriptions w) target) eqn:Hp.
  { rewrite watch_taken by exact Hp. exact Hinv. }
  rewrite watch_free by exact Hp.
  destruct (watch_options env options) as [e | options2]; [exact Hinv |].
  apply has_property_free in Hp. destruct Hinv as [H1 H2].
  cbn [snd]. split; cbn [subscriptions workers].
  - intros k worker Hk Hrun.
    destruct (decide (k < length (workers w))%nat) as [Hlt | Hge].
    + rewrite lookup_app_l in Hk by exact Hlt.
      pose proof (H1 k worker Hk Hrun) as Hreg.
      rewrite lookup_insert_ne; [exact Hreg |].
      intros Heq. rewrite <- Heq in Hreg. congruence.
    + rewrite lookup_app_r in Hk by lia.
      destruct (k - length (workers w))%nat as [| d] eqn:Hd; [| discriminate Hk].
      cbn in Hk. inversion Hk; subst worker. cbn [w_name].
      rewrite lookup_insert_eq. f_equal. lia.
  - intros name' k Hk. unfold poller_of. cbn [workers].
    destruct (decide (target = name')) as [<- | Hne].
    + rewrite lookup_insert_eq in Hk. inversion Hk; subst k.
      exists (mkWorker target options2 callback true).
      rewrite lookup_app_r, Nat.sub_diag by lia. repeat split.
    + rewrite lookup_insert_ne in Hk by exact Hne.
      destruct (H2 name' k Hk) as (worker & Hw & Hn & Hr).
      exists worker. rewrite lookup_app_l by (eapply lookup_lt_Some, Hw).
      repeat split; assumption.
Qed.

Lemma unsubscribe_subscriptions (name : string) (w : World Store) :
  subscriptions (snd (unsubscribe name w)) = delete name (subscriptions w).
Proof.
  unfold unsubscribe. destruct (subscriptions w !! name) as [k |] eqn:Hk.
  - reflexivity.
  - destruct (inherited name); cbn [snd]; symmetry; apply delete_id, Hk.
Qed.

(** Unsubscribing stops the one worker of the name and keeps the rest. *)
Lemma unsubscribe_consistent (name : string) (w : World Store) :
  registry_consistent w -> registry_consistent (snd (unsubscribe name w)).
Proof.
  intros [H1 H2]. unfold unsubscribe.
  destruct (subscriptions w !! name) as [k0 |] eqn:Hk0.
  2: { destruct (inherited name); split; assumption. }
  cbn [snd]. split; cbn [subscriptions workers].
  - intros k worker Hk Hrun.
    destruct (decide (k0 = k)) as [<- | Hne].
    + rewrite list_lookup_alter_eq in Hk.
      destruct (workers w !! k0) as [worker0 |]; [| discriminate Hk].
      cbn in Hk. inversion Hk; subst worker. discriminate Hrun.
    + rewrite list_lookup_alter_ne in Hk by exact Hne.
      pose proof (H1 k worker Hk Hrun) as Hreg.
      rewrite lookup_delete_ne; [exact Hreg |].
      intros Heq. rewrite <- Heq in Hreg. congruence.
  - intros name' k Hk.
    destruct (decide (name = name')) as [<- | Hne].
    { rewrite lookup_delete_eq in Hk. discriminate Hk. }
    rewrite lookup_delete_ne in Hk by exact Hne.
    destruct (H2 name' k Hk) as (worker & Hw & Hn & Hr).
    exists worker. cbn [workers].
    rewrite list_lookup_alter_ne; [repeat split; assumption |].
    intros <-. destruct (H2 name k0 Hk0) as (worker0 & Hw0 & Hn0 & _).
    congruence.
Qed.

Lemma unsubscribe_each_consistent (names : list string) :
  forall w : World Store,
    registry_consistent w -> registry_consistent (unsubscribe_each names w).
Proof.
  induction names as [| name names IH]; intros w Hinv; [exact Hinv |].
  cbn. apply IH, unsubscribe_consistent, Hinv.
Qed.

Lemma unsubscribe_each_lookup (names : list string) :
  forall (w : World Store) (name : string),
    subscriptions (unsubscribe_each names w) !! name =
      if bool_decide (name ∈ names) then None else subscriptions w !! name.
Proof.
  induction names as [| n names IH]; intros w name.
  - cbn. rewrite bool_decide_eq_false_2 by apply not_elem_of_nil. reflexivity.
  - cbn [unsubscribe_each foldl]. fold (unsubscribe_each names (snd (unsubscribe n w))).
    rewrite IH, unsubscribe_subscriptions.
    destruct (decide (name ∈ names)) as [Hin | Hout].
    + rewrite !bool_decide_eq_true_2; [reflexivity | right; exact Hin | exact Hin].
    + rewrite (bool_decide_eq_false_2 _ Hout).
      destruct (decide (name = n)) as [-> | Hne].
      * rewrite bool_decide_eq_true_2 by left. apply lookup_delete_eq.
      * rewrite bool_decide_eq_false_2.
        -- apply lookup_delete_ne. congruence.
        -- intros Hin. apply elem_of_cons in Hin as [? | ?]; contradiction.
Qed.

(** [stop()] leaves no subscription and no running worker behind. *)
Lemma stop_consistent (w : World Store) :
  registry_consistent w -> registry_consistent (snd (stop w)).
Proof.
  intros Hinv. unfold stop. cbn [snd].
  set (names := (map_to_list (subscriptions w)).*1).
  pose proof (unsubscribe_each_consistent names w Hinv) as Hinv1.
  assert (Hempty : subscriptions (unsubscribe_each names w) = ∅).
  { apply map_eq. intros name. rewrite unsubscribe_each_lookup, lookup_empty.
    destruct (decide (name ∈ names)) as [Hin | Hout].
    - rewrite bool_decide_eq_true_2 by exact Hin. reflexivity.
    - rewrite bool_decide_eq_false_2 by exact Hout.
      destruct (subscriptions w !! name) as [k |] eqn:Hk; [| reflexivity].
      exfalso. apply Hout. subst names.
      apply list_elem_of_fmap. exists (name, k). split; [reflexivity |].
      apply elem_of_map_to_list, Hk. }
  destruct Hinv1 as [H1 H2]. split; cbn [subscriptions workers].
  - intros k worker Hk Hrun. rewrite <- Hempty. apply H1; assumption.
  - intros name k Hk. rewrite lookup_empty in Hk. discriminate Hk.
Qed.

Lemma step_consistent (w w' : World Store) :
  step env w w' -> registry_consistent w -> registry_consistent w'.
Proof.
  intros Hstep Hinv. destruct Hstep.
  - apply checked_watch_consistent, Hinv.
  - apply checked_watch_consistent, Hinv.
  - apply unsubscribe_consistent, Hinv.
  - apply unsubscribe_consistent, Hinv.
  - apply stop_consistent, Hinv.
  - eapply same_registry_consistent; [eapply publish_same_registry; eassumption | exact Hinv].
  - eapply same_registry_consistent; [apply fetch_same_registry | exact Hinv].
  - eapply same_registry_consistent; [apply fetch_same_registry | exact Hinv].
  - eapply same_registry_consistent; [apply call_same_registry | exact Hinv].
  - eapply same_registry_consistent; [apply fetch_same_registry | exact Hinv].
Qed.

Lemma reachable_consistent (w : World Store) :
  reachable env w -> registry_consistent w.
Proof.
  induction 1 as [s | w w' _ IH Hstep].
  - split.
    + intros k worker Hk. cbn in Hk. rewrite lookup_nil in Hk. discriminate Hk.
    + intros name k Hk. cbn in Hk. rewrite lookup_empty in Hk. discriminate Hk.
  - eapply step_consistent; eassumption.
Qed.

(** C7. In every state the process can reach: [subscribe] for a name
    that is registered, and [onComplete] for a name whose completion
    name is registered, are rejected and leave the process, its registry
    and its workers as they were; no name has two pollers; and a name
    is registered exactly when it has a poller. *)
Theorem single_subscriber (w : World Store) :
  reachable env w ->
  (forall name args, is_Some (subscriptions w !! name) ->
     exists e, subscribe env name args w = (Rejected e, w)) /\
  (forall name args, is_Some (subscriptions w !! (name +:+ completedJobSuffix env)) ->
     exists e, onComplete env name args w = (Rejected e, w)) /\
  (forall name i j, poller_of w name i -> poller_of w name j -> i = j) /\
  (forall name, is_Some (subscriptions w !! name) <-> exists k, poller_of w name k).
Proof.
  intros Hreach. destruct (reachable_consistent w Hreach) as [H1 H2].
  split; [intros name args Hreg; apply checked_watch_taken, Hreg |].
  split; [intros name args Hreg; apply checked_watch_taken, Hreg |].
  split.
  - intros name i j (wi & Hi & Hni & Hri) (wj & Hj & Hnj & Hrj).
    pose proof (H1 i wi Hi Hri) as Hregi. pose proof (H1 j wj Hj Hrj) as Hregj.
    rewrite Hni in Hregi. rewrite Hnj in Hregj. congruence.
  - intros name. split.
    + intros [k Hk]. exists k. apply H2, Hk.
    + intros (k & worker & Hk & Hn & Hr). exists k.
      rewrite <- Hn. apply H1; assumption.
Qed.

End Registry.

(** A second [subscribe] to a name subscribed a moment ago. *)
Lemma single_subscriber_witness :
  exists e,
    subscribe Scenario.plain "email" [VFunc 1]
      (snd (subscribe Scenario.plain "email" [VFunc 0] (Scenario.boot []))) =
    (Rejected e, snd (subscribe Scenario.plain "email" [VFunc 0] (Scenario.boot []))).
Proof.
  apply (proj1 (single_subscriber Scenario.plain
                  (snd (subscribe Scenario.plain "email" [VFunc 0] (Scenario.boot [])))
                  (reachable_step Scenario.plain _ _ (reachable_started Scenario.plain [])
                     (step_subscribe Scenario.plain "email" [VFunc 0] (started [])))) "email" [VFunc 1]).
  vm_compute. eauto.
Defined.

(** ** Further properties of the methods *)

(** *** Completion calls *)

(** X1. What [mapCompletionDataArg] returns is [null] or an object that
    is not an array, and mapping it again changes nothing. *)
Theorem mapCompletionDataArg_normal (data : JsVal) :
  (mapCompletionDataArg data = VNull \/
   exists props, mapCompletionDataArg data = VObj props) /\
  mapCompletionDataArg (mapCompletionDataArg data) = mapCompletionDataArg data.
Proof.
  destruct data; cbn; split; solve [reflexivity | left; reflexivity | right; eauto].
Qed.

Section CompletionFurther.

Context {Store : Type}.
Variable env : Collaborators Store.

(** X2. A truthy id that is not an array and the one-element array of it
    are the same call; and an array of one element goes to the store
    whatever the element is: the id check looks at the argument, not
    inside the array. *)
Theorem call_single_id (c : CompletionCall) (id data : JsVal) (w : World Store) :
  truthy id = true -> Array_isArray id = false ->
  call env c id data w = call env c (VArr [id]) data w /\
  forall element,
    sql_log (snd (call env c (VArr [element]) data w)) =
      sql_log w ++ [(command_of c, values_of c (VArr [element]) data)].
Proof.
  intros Ht Harr.
  assert (Hids : as_array id = [id]) by (destruct id; try reflexivity; discriminate Harr).
  split.
  - rewrite (call_sends env c id data w Ht) by (rewrite Hids; discriminate).
    rewrite (call_sends env c (VArr [id]) data w eq_refl) by discriminate.
    assert (Hv : values_of c id data = values_of c (VArr [id]) data)
      by (destruct c; cbn [values_of]; rewrite Hids; reflexivity).
    rewrite Hv, Hids. reflexivity.
  - intros element.
    rewrite (call_sends env c (VArr [element]) data w eq_refl) by discriminate.
    reflexivity.
Qed.

(** X3. Whatever its arguments, a completion call draws no id and leaves
    the registry and the workers alone; either it is rejected at the id
    check with nothing sent and the store as it was, or it has sent its
    own command once and nothing else. *)
Theorem call_footprint (c : CompletionCall) (id data : JsVal) (w : World Store) :
  issued (snd (call env c id data w)) = issued w /\
  subscriptions (snd (call env c id data w)) = subscriptions w /\
  workers (snd (call env c id data w)) = workers w /\
  ((snd (call env c id data w) = w /\
    fst (call env c id data w) =
      Rejected (AssertionError (funcName c +:+ "() requires an id"))) \/
   sql_log (snd (call env c id data w)) =
     sql_log w ++ [(command_of c, values_of c id data)]).
Proof.
  destruct (truthy id) eqn:Ht.
  - destruct (as_array id) as [| x ids] eqn:Hids.
    + assert (Hid : id = VArr []).
      { destruct id; cbn in Hids; try discriminate Hids. subst. reflexivity. }
      rewrite (call_refuses env c id data w (or_intror Hid)).
      repeat split. left. split; reflexivity.
    + rewrite (call_sends env c id data w Ht) by (rewrite Hids; discriminate).
      repeat split. right. reflexivity.
  - rewrite (call_refuses env c id data w (or_introl Ht)).
    repeat split. left. split; reflexivity.
Qed.

(** X4. A command the store rejects rejects the call with the store's
    reason: a completion call, a fetch, and [createJob], which then sends
    no second insert even when the next slot is asked for and leaves the
    options as they were. *)
Theorem store_failure_propagates (reason : JsVal) (w : World Store) (s : Store) :
  (forall c id data,
     truthy id = true -> as_array id <> [] ->
     db_executeSql env (command_of c) (values_of c id data) (store w) = (inl reason, s) ->
     fst (call env c id data w) = Rejected (Reason reason)) /\
  (forall name b,
     checkFetchArgs env (as_array name) b = inr tt ->
     db_executeSql env nextJobCommand
       [VArr (as_array name); VNum (num_or_default b 1)] (store w) = (inl reason, s) ->
     fst (fetch env name b w) = Rejected (Reason reason)) /\
  (forall fuel name data options offset,
     let values := insert_values (uuid env (issued w)) name data options offset in
     db_executeSql env insertJobCommand values (store w) = (inl reason, s) ->
     createJob env (S fuel) name data options offset w =
       Some (Rejected (Reason reason), options,
             mkWorld s (sql_log w ++ [(insertJobCommand, values)])
                     (S (issued w)) (subscriptions w) (workers w))).
Proof.
  split; [| split].
  - intros c id data Ht Hne Hdb.
    rewrite (call_sends env c id data w Ht Hne), Hdb. reflexivity.
  - intros name b Hcheck Hdb.
    rewrite (fetch_sends env name b w Hcheck). cbv zeta. rewrite Hdb. reflexivity.
  - intros fuel name data options offset values Hdb.
    rewrite createJob_unfold. cbv zeta. fold values. unfold inserted.
    rewrite Hdb. reflexivity.
Qed.

End CompletionFurther.

Lemma call_single_id_witness :
  call Scenario.plain Fail (VStr "job-0") (VStr "boom") (Scenario.boot []) =
  call Scenario.plain Fail (VArr [VStr "job-0"]) (VStr "boom") (Scenario.boot []).
Proof.
  apply (proj1 (call_single_id Scenario.plain Fail (VStr "job-0") (VStr "boom")
                  (Scenario.boot []) eq_refl eq_refl)).
Defined.

(** The store is down while a job is published with the next slot asked
    for: one insert, no retry. *)
Lemma store_failure_propagates_witness :
  createJob (Scenario.collaborators Scenario.hourly Scenario.no_subscribe_options) 2
            "report" VNull Scenario.hourly None
            (Scenario.boot [inl (VStr "connection refused")]) =
    Some (Rejected (Reason (VStr "connection refused")), Scenario.hourly,
          mkWorld []
            [(insertJobCommand, insert_values "job-0" "report" VNull Scenario.hourly None)]
            1%nat ∅ []).
Proof.
  apply (proj2 (proj2 (store_failure_propagates
                         (Scenario.collaborators Scenario.hourly Scenario.no_subscribe_options)
                         (VStr "connection refused")
                         (Scenario.boot [inl (VStr "connection refused")]) []))
               1%nat "report" VNull Scenario.hourly None eq_refl).
Defined.

(** *** Publishing *)

(** X5. Whatever the options and the offset, the window an insert carries
    is [null] or a number of seconds greater than zero, and the offset it
    carries is a number: a window of zero never reaches the store. *)
Theorem insert_window_positive (id name : string) (data : JsVal)
    (options : PublishOptions) (offset : option Z) :
  (insert_values id name data options offset !! 8%nat = Some VNull \/
   exists n, 0 < n /\
     insert_values id name data options offset !! 8%nat = Some (VNum n)) /\
  exists k, insert_values id name data options offset !! 9%nat = Some (VNum k).
Proof.
  split; [| eexists; reflexivity].
  cbn. destruct (createJob_singletonSeconds options) as [n |] eqn:Hs.
  - right. exists n. split; [| reflexivity].
    eapply createJob_singletonSeconds_positive, Hs.
  - left. reflexivity.
Qed.

Section PublishingFurther.

Context {Store : Type}.
Variable env : Collaborators Store.

Lemma createJob_resolved_id (fuel : nat) :
  forall name data options offset (w : World Store) id options' w',
    createJob env fuel name data options offset w = Some (Resolved (VStr id), options', w') ->
    exists sent values,
      sql_log w' = sql_log w ++ sent ++ [(insertJobCommand, values)] /\
      values !! 0%nat = Some (VStr id) /\
      values !! 1%nat = Some (VStr name) /\
      values !! 6%nat = Some data /\
      issued w' = (issued w + S (length sent))%nat /\
      id = uuid env (issued w + length sent)%nat.
Proof.
  induction fuel as [| fuel IH]; intros name data options offset w id options' w'.
  - discriminate.
  - rewrite createJob_unfold. cbv zeta.
    destruct (fst (db_executeSql env insertJobCommand _ (store w))) as [reason | result].
    { discriminate. }
    destruct (rowCount result =? 1).
    { intros H. inversion H; subst. eexists [], _. cbn.
      rewrite Nat.add_0_r. repeat split. lia. }
    destruct (negb (nextSlot_requested options)).
    { discriminate. }
    intros H. apply IH in H.
    destruct H as (sent & values & Hlog & H0 & H1 & H6 & Hissued & Hid).
    cbn [inserted sql_log issued] in Hlog, Hissued, Hid.
    eexists (_ :: sent), values. cbn [length].
    rewrite Hlog, <- app_assoc. cbn.
    repeat split; try assumption; [lia |].
    rewrite Hid. f_equal. lia.
Qed.

(** X7. The id [createJob] resolves to is the id of the job it inserted
    last: the last command sent is an insert that carries this id, the
    name and the data, and the id is the latest one drawn, one id being
    drawn for each insert sent. After a retry it is the second id. *)
Theorem createJob_resolves_inserted_id (fuel : nat) (name : string) (data : JsVal)
    (options : PublishOptions) (offset : option Z) (w : World Store)
    (id : string) (options' : PublishOptions) (w' : World Store) :
  createJob env fuel name data options offset w = Some (Resolved (VStr id), options', w') ->
  exists sent values,
    sql_log w' = sql_log w ++ sent ++ [(insertJobCommand, values)] /\
    values !! 0%nat = Some (VStr id) /\
    values !! 1%nat = Some (VStr name) /\
    values !! 6%nat = Some data /\
    issued w' = (issued w + S (length sent))%nat /\
    id = uuid env (issued w + length sent)%nat.
Proof. apply createJob_resolved_id. Qed.

(** X8. What [Attorney] rejects is rejected with its error and nothing
    else happens: [publish] sends no insert and draws no id, [subscribe]
    and [onComplete] register nothing, [fetch] sends no command. *)
Theorem validation_rejections (e : JsError) (w : World Store) :
  (forall fuel args,
     checkPublishArgs env args = inl e ->
     publish env fuel args w = Some (Rejected e, w)) /\
  (forall name args,
     checkSubscribeArgs env name args = inl e ->
     subscribe env name args w = (Rejected e, w) /\
     onComplete env name args w = (Rejected e, w)) /\
  (forall name b,
     checkFetchArgs env (as_array name) b = inl e ->
     fetch env name b w = (Rejected e, w)) /\
  (forall name b,
     checkFetchArgs env [VStr (name +:+ completedJobSuffix env)] b = inl e ->
     fetchCompleted env name b w = (Rejected e, w)).
Proof.
  split; [| split; [| split]].
  - intros fuel args H. unfold publish. rewrite H. reflexivity.
  - intros name args H. unfold subscribe, onComplete.
    rewrite !checked_watch, H. split; reflexivity.
  - intros name b H. unfold fetch, then_, checked. rewrite H. reflexivity.
  - intros name b H. unfold fetchCompleted, fetch, then_, checked.
    cbn [as_array]. rewrite H. reflexivity.
Qed.

End PublishingFurther.

(** The retry of the hourly report resolves to the second id drawn, the
    one the second insert carries. *)
Lemma createJob_resolves_inserted_id_witness :
  exists sent values,
    [ (insertJobCommand, insert_values "job-0" "report" VNull Scenario.hourly None);
      (insertJobCommand,
       insert_values "job-1" "report" VNull Scenario.hourly_round2 (Some 3600)) ] =
      [] ++ sent ++ [(insertJobCommand, values)] /\
    values !! 0%nat = Some (VStr "job-1") /\
    values !! 1%nat = Some (VStr "report") /\
    values !! 6%nat = Some VNull /\
    2%nat = (0 + S (length sent))%nat /\
    "job-1" = Scenario.job_id (0 + length sent)%nat.
Proof.
  apply (createJob_resolves_inserted_id
           (Scenario.collaborators Scenario.hourly Scenario.no_subscribe_options) 2
           "report" VNull Scenario.hourly None
           (Scenario.boot [inr (mkSqlResult 0 []); inr (mkSqlResult 1 [])])
           "job-1" Scenario.hourly_round2
           (mkWorld []
              [ (insertJobCommand, insert_values "job-0" "report" VNull Scenario.hourly None);
                (insertJobCommand,
                 insert_values "job-1" "report" VNull Scenario.hourly_round2 (Some 3600)) ]
              2%nat ∅ [])
           eq_refl).
Defined.

(** A publish without a queue name. *)
Lemma validation_rejections_witness :
  publish Scenario.plain 2 [VNum 7] (Scenario.boot []) =
    Some (Rejected (AssertionError "boss requires all jobs to have a queue name"),
          Scenario.boot []).
Proof.
  apply (proj1 (validation_rejections Scenario.plain
                  (AssertionError "boss requires all jobs to have a queue name")
                  (Scenario.boot [])) 2%nat [VNum 7] eq_refl).
Defined.

(** *** Fetching and dispatch *)

Lemma dispatch_objects (jobs : list JsVal) :
  Forall (fun job => exists props, job = VObj props) jobs ->
  dispatch jobs = (jobs, None).
Proof.
  induction 1 as [| job rest [props ->] _ IH]; [reflexivity |].
  cbn. rewrite IH. reflexivity.
Qed.

Section FetchingFurther.

Context {Store : Type}.
Variable env : Collaborators Store.

(** X15. A name that is not an array and the one-element array of it are
    the same fetch. A fetch draws no id and leaves the registry and the
    workers alone; when its arguments pass the check it sends one
    command, with the names as an array and a limit that is [batchSize]
    when that is given and not 0 and 1 otherwise: the store is never
    asked for zero jobs. *)
Theorem fetch_request (name : JsVal) (b : option Z) (w : World Store) :
  (Array_isArray name = false -> fetch env name b w = fetch env (VArr [name]) b w) /\
  issued (snd (fetch env name b w)) = issued w /\
  subscriptions (snd (fetch env name b w)) = subscriptions w /\
  workers (snd (fetch env name b w)) = workers w /\
  (checkFetchArgs env (as_array name) b = inr tt ->
   exists limit,
     limit <> 0 /\
     (forall n, b = Some n -> n <> 0 -> limit = n) /\
     (b = None \/ b = Some 0 -> limit = 1) /\
     sql_log (snd (fetch env name b w)) =
       sql_log w ++ [(nextJobCommand, [VArr (as_array name); VNum limit])]).
Proof.
  split.
  { intros Harr.
    assert (Hids : as_array name = [name])
      by (destruct name; try reflexivity; discriminate Harr).
    unfold fetch. rewrite Hids. reflexivity. }
  destruct (fetch_same_registry env name b w) as [Hs Hw].
  split.
  { unfold fetch, then_, checked, executeSql, Promise_resolve, Promise_reject.
    destruct (checkFetchArgs env (as_array name) b) as [e | []]; [reflexivity |].
    destruct (db_executeSql env nextJobCommand _ (store w)) as [[reason | result] s];
      reflexivity. }
  split; [exact Hs |]. split; [exact Hw |].
  intros Hcheck. exists (num_or_default b 1).
  split; [| split; [| split]].
  - destruct b as [n |]; cbn; [| discriminate].
    destruct (Z.eqb_spec n 0); [discriminate | assumption].
  - intros n -> Hn. cbn. destruct (Z.eqb_spec n 0); [contradiction | reflexivity].
  - intros [-> | ->]; reflexivity.
  - rewrite (fetch_sends env name b w Hcheck). reflexivity.
Qed.

(** X16. What [fetch] resolves to, handed to [respond], has the callback
    called once with each row the store returned, in the store's order,
    whatever [batchSize] is: the single job, the array and [null] all
    come out as the rows. The rows are taken to be objects, as jobs
    are. *)
Theorem fetched_rows_dispatched (name : JsVal) (b : option Z) (w : World Store)
    (result : SqlResult) (s : Store) :
  checkFetchArgs env (as_array name) b = inr tt ->
  db_executeSql env nextJobCommand
    [VArr (as_array name); VNum (num_or_default b 1)] (store w) = (inr result, s) ->
  Forall (fun row => exists props, row = VObj props) (rows result) ->
  exists jobs,
    fst (fetch env name b w) = Resolved jobs /\
    dispatch (respond jobs) = (rows result, None).
Proof.
  intros Hcheck Hdb Hrows.
  rewrite (fetch_sends env name b w Hcheck). cbv zeta. rewrite Hdb. cbn [fst].
  eexists. split; [reflexivity |].
  destruct (rows result) as [| row [| row2 rest]] eqn:Hr.
  - reflexivity.
  - cbn [length Nat.eqb andb].
    inversion Hrows as [| ? ? [props ->] _]; subst.
    destruct (negb (num_truthy b)); reflexivity.
  - cbn [length Nat.eqb andb]. unfold respond. cbn [truthy negb as_array].
    apply dispatch_objects, Hrows.
Qed.

(** X17. The [done] resolver of a job whose [id] is truthy and not an
    array sends one command: [failJobs] with the normalised error when
    the error is truthy, [completeJobs] with the normalised response
    otherwise, so that [done()], [done(null, r)] and [done(0, r)] all
    complete the job. On a job without an id it is rejected and nothing
    is sent. *)
Theorem job_done_settles (job error response : JsVal) (w : World Store) :
  (truthy (property "id" job) = true ->
   Array_isArray (property "id" job) = false ->
   sql_log (snd (job_done env job error response w)) =
     sql_log w ++
     [ if truthy error
       then (failJobsCommand, [VArr [property "id" job]; mapCompletionDataArg error])
       else (completeJobsCommand, [VArr [property "id" job]; mapCompletionDataArg response]) ]) /\
  (truthy (property "id" job) = false ->
   job_done env job error response w =
     (Rejected (AssertionError ((if truthy error then "fail" else "complete")
                                +:+ "() requires an id")), w)).
Proof.
  split.
  - intros Ht Harr.
    assert (Hids : as_array (property "id" job) = [property "id" job])
      by (destruct (property "id" job); try reflexivity; discriminate Harr).
    unfold job_done. destruct (truthy error).
    + change (fail env (property "id" job) error)
        with (call env Fail (property "id" job) error).
      rewrite call_sends by (rewrite ?Hids; congruence).
      cbn [snd sql_log command_of values_of]. rewrite Hids. reflexivity.
    + change (complete env (property "id" job) response)
        with (call env Complete (property "id" job) response).
      rewrite call_sends by (rewrite ?Hids; congruence).
      cbn [snd sql_log command_of values_of]. rewrite Hids. reflexivity.
  - intros Hf. unfold job_done. destruct (truthy error).
    + change (fail env (property "id" job) error)
        with (call env Fail (property "id" job) error).
      apply call_refuses. left. exact Hf.
    + change (complete env (property "id" job) response)
        with (call env Complete (property "id" job) response).
      apply call_refuses. left. exact Hf.
Qed.

End FetchingFurther.

(** Two jobs fetched with a batch size of 2 are both dispatched. *)
Lemma fetched_rows_dispatched_witness :
  exists jobs,
    fst (fetch Scenario.plain (VStr "jobs") (Some 2)
           (Scenario.boot
              [inr (mkSqlResult 2 [Scenario.job "job-0"; Scenario.job "job-1"])])) =
      Resolved jobs /\
    dispatch (respond jobs) = ([Scenario.job "job-0"; Scenario.job "job-1"], None).
Proof.
  apply (fetched_rows_dispatched Scenario.plain (VStr "jobs") (Some 2)
           (Scenario.boot
              [inr (mkSqlResult 2 [Scenario.job "job-0"; Scenario.job "job-1"])])
           (mkSqlResult 2 [Scenario.job "job-0"; Scenario.job "job-1"]) []
           eq_refl eq_refl).
  repeat constructor; eexists; reflexivity.
Defined.

(** [done("boom")] on a fetched job fails it with [{value: "boom"}]. *)
Lemma job_done_settles_witness :
  sql_log (snd (job_done Scenario.plain (Scenario.job "job-0") (VStr "boom") VUndefined
                  (Scenario.boot []))) =
    [] ++ [(failJobsCommand, [VArr [VStr "job-0"]; VObj [("value", VStr "boom")]])].
Proof.
  apply (proj1 (job_done_settles Scenario.plain (Scenario.job "job-0") (VStr "boom")
                  VUndefined (Scenario.boot [])) eq_refl eq_refl).
Defined.

(** A fetch of ["a"] and of [["a"]] with no batch size. *)
Lemma fetch_request_witness :
  fetch Scenario.plain (VStr "a") None (Scenario.boot []) =
  fetch Scenario.plain (VArr [VStr "a"]) None (Scenario.boot []).
Proof.
  apply (proj1 (fetch_request Scenario.plain (VStr "a") None (Scenario.boot [])) eq_refl).
Defined.

(** *** The registry over a subscription's life *)

Lemma append_changes (name suffix : string) :
  suffix <> "" -> name +:+ suffix <> name.
Proof.
  intros Hs. induction name as [| a name IH]; cbn.
  - exact Hs.
  - intros H. inversion H. contradiction.
Qed.

Lemma later_worker_refl (a : Worker) : later_worker a a.
Proof. repeat split. trivial. Qed.

Lemma later_worker_trans (a b c : Worker) :
  later_worker a b -> later_worker b c -> later_worker a c.
Proof.
  intros (Hn1 & Ho1 & Hc1 & Hr1) (Hn2 & Ho2 & Hc2 & Hr2).
  repeat split; try congruence. auto.
Qed.

Lemma later_worker_stop (a : Worker) : later_worker a (Worker_stop a).
Proof. repeat split. Qed.

Section RegistryFurther.

Context {Store : Type}.
Variable env : Collaborators Store.

(** What a call through the check and [watch] leaves behind: the process
    as it was, or one more worker, running, registered under a name that
    was free. *)
Lemma checked_watch_effect (name target : string) (args : list JsVal) (w : World Store) :
  let r := then_ (checked (checkSubscribeArgs env name args))
                 (fun oc => watch env target (fst oc) (snd oc)) w in
  ((exists e, fst r = Rejected e) /\ snd r = w) \/
  (exists options callback options2,
     checkSubscribeArgs env name args = inr (options, callback) /\
     watch_options env options = inr options2 /\
     has_property (subscriptions w) target = false /\
     r = (Resolved (VBool true),
          mkWorld (store w) (sql_log w) (issued w)
                  (<[target := length (workers w)]> (subscriptions w))
                  (workers w ++ [mkWorker target options2 callback true]))).
Proof.
  cbv zeta. rewrite checked_watch.
  destruct (checkSubscribeArgs env name args) as [e | [options callback]] eqn:Hargs.
  { left. split; [eauto | reflexivity]. }
  destruct (has_property (subscriptions w) target) eqn:Hp.
  { rewrite watch_taken by exact Hp. left. split; [eauto | reflexivity]. }
  rewrite watch_free by exact Hp.
  destruct (watch_options env options) as [e | options2] eqn:Hopts.
  { left. split; [eauto | reflexivity]. }
  right. exists options, callback, options2.
  repeat (split; [first [assumption | reflexivity] |]). reflexivity.
Qed.

Lemma checked_watch_same_store (name target : string) (args : list JsVal) (w : World Store) :
  same_store w (snd (then_ (checked (checkSubscribeArgs env name args))
                           (fun oc => watch env target (fst oc) (snd oc)) w)).
Proof.
  destruct (checked_watch_effect name target args w)
    as [[_ ->] | (o & cb & o2 & _ & _ & _ & ->)]; repeat split.
Qed.

Lemma unsubscribe_same_store (name : string) (w : World Store) :
  same_store w (snd (unsubscribe name w)).
Proof.
  unfold unsubscribe. destruct (subscriptions w !! name); [repeat split |].
  destruct (inherited name); repeat split.
Qed.

Lemma unsubscribe_each_same_store (names : list string) :
  forall w : World Store, same_store w (unsubscribe_each names w).
Proof.
  induction names as [| name names IH]; intros w; [repeat split |].
  cbn [unsubscribe_each foldl]. fold (unsubscribe_each names (snd (unsubscribe name w))).
  destruct (IH (snd (unsubscribe name w))) as (H1 & H2 & H3).
  destruct (unsubscribe_same_store name w) as (H4 & H5 & H6).
  repeat split; congruence.
Qed.

Lemma stop_same_store (w : World Store) : same_store w (snd (stop w)).
Proof.
  unfold stop. cbn [snd].
  destruct (unsubscribe_each_same_store (map_to_list (subscriptions w)).*1 w)
    as (H1 & H2 & H3).
  repeat split; assumption.
Qed.

(** Every worker is still there after [unsubscribe], later in its life. *)
Lemma unsubscribe_later (name : string) (w : World Store) (k : nat) (a : Worker) :
  workers w !! k = Some a ->
  exists b, workers (snd (unsubscribe name w)) !! k = Some b /\ later_worker a b.
Proof.
  intros Hk. unfold unsubscribe.
  destruct (subscriptions w !! name) as [k0 |].
  - cbn [snd workers]. destruct (decide (k0 = k)) as [-> | Hne].
    + rewrite list_lookup_alter_eq, Hk. cbn. eexists. split; [reflexivity |].
      apply later_worker_stop.
    + rewrite list_lookup_alter_ne by exact Hne.
      exists a. split; [exact Hk | apply later_worker_refl].
  - destruct (inherited name); exists a; (split; [exact Hk | apply later_worker_refl]).
Qed.

Lemma unsubscribe_each_later (names : list string) :
  forall (w : World Store) (k : nat) (a : Worker),
    workers w !! k = Some a ->
    exists b, workers (unsubscribe_each names w) !! k = Some b /\ later_worker a b.
Proof.
  induction names as [| name names IH]; intros w k a Hk.
  - exists a. split; [exact Hk | apply later_worker_refl].
  - cbn [unsubscribe_each foldl]. fold (unsubscribe_each names (snd (unsubscribe name w))).
    destruct (unsubscribe_later name w k a Hk) as (b & Hb & Hab).
    destruct (IH _ k b Hb) as (c & Hc & Hbc).
    exists c. split; [exact Hc | eapply later_worker_trans; eassumption].
Qed.

(** X13. No call removes a worker or starts one again: after any step
    every worker is still at its place with its name, options and
    callback, and one that was stopped is still stopped. *)
Theorem stopped_workers_stay_stopped (w w' : World Store) (k : nat) (a : Worker) :
  step env w w' ->
  workers w !! k = Some a ->
  exists b,
    workers w' !! k = Some b /\
    w_name b = w_name a /\ w_options b = w_options a /\ w_callback b = w_callback a /\
    (w_running a = false -> w_running b = false).
Proof.
  intros Hstep Hk.
  assert (Hsame : forall w1, same_registry w w1 ->
            exists b, workers w1 !! k = Some b /\ later_worker a b).
  { intros w1 [_ Hw]. rewrite Hw. exists a. split; [exact Hk | apply later_worker_refl]. }
  assert (Hwatch : forall name target args,
            exists b,
              workers (snd (then_ (checked (checkSubscribeArgs env name args))
                                  (fun oc => watch env target (fst oc) (snd oc)) w)) !! k
                = Some b /\ later_worker a b).
  { intros name target args.
    destruct (checked_watch_effect name target args w)
      as [[_ ->] | (o & cb & o2 & _ & _ & _ & ->)];
      exists a; (split; [| apply later_worker_refl]); [exact Hk |].
    cbn [snd workers]. rewrite lookup_app_l by (eapply lookup_lt_Some, Hk). exact Hk. }
  assert (Hgoal : exists b, workers w' !! k = Some b /\ later_worker a b).
  { destruct Hstep.
    - apply Hwatch.
    - apply Hwatch.
    - apply unsubscribe_later, Hk.
    - apply unsubscribe_later, Hk.
    - unfold stop. cbn [snd workers]. apply unsubscribe_each_later, Hk.
    - apply Hsame. eapply publish_same_registry. eassumption.
    - apply Hsame, fetch_same_registry.
    - apply Hsame, fetch_same_registry.
    - apply Hsame, call_same_registry.
    - apply Hsame, fetch_same_registry. }
  destruct Hgoal as (b & Hb & Hlater). exists b. split; [exact Hb | exact Hlater].
Qed.

(** X9. A subscription that succeeded and is then unsubscribed leaves
    the registry as it was before, the store, the commands and the ids
    untouched, and one stopped worker more; so do [onComplete] and
    [offComplete]. *)
Theorem subscribe_unsubscribe (name : string) (args : list JsVal) (v : JsVal)
    (w w1 : World Store) :
  (subscribe env name args w = (Resolved v, w1) ->
   exists worker,
     unsubscribe name w1 =
       (Resolved (VBool true),
        mkWorld (store w) (sql_log w) (issued w) (subscriptions w)
                (workers w ++ [worker])) /\
     w_name worker = name /\ w_running worker = false) /\
  (onComplete env name args w = (Resolved v, w1) ->
   exists worker,
     offComplete env name w1 =
       (Resolved (VBool true),
        mkWorld (store w) (sql_log w) (issued w) (subscriptions w)
                (workers w ++ [worker])) /\
     w_name worker = name +:+ completedJobSuffix env /\ w_running worker = false).
Proof.
  assert (Hgen : forall target,
    then_ (checked (checkSubscribeArgs env name args))
          (fun oc => watch env target (fst oc) (snd oc)) w = (Resolved v, w1) ->
    exists worker,
      unsubscribe target w1 =
        (Resolved (VBool true),
         mkWorld (store w) (sql_log w) (issued w) (subscriptions w)
                 (workers w ++ [worker])) /\
      w_name worker = target /\ w_running worker = false).
  { intros target Hrun.
    destruct (checked_watch_effect name target args w)
      as [[[e He] _] | (o & cb & o2 & _ & _ & Hp & Heq)].
    { rewrite Hrun in He. discriminate He. }
    cbv zeta in Heq. rewrite Hrun in Heq. inversion Heq; subst.
    apply has_property_free in Hp.
    exists (Worker_stop (mkWorker target o2 cb true)).
    split; [| split; reflexivity].
    unfold unsubscribe. cbn [subscriptions workers store sql_log issued].
    rewrite lookup_insert_eq, delete_insert_id by exact Hp.
    replace (length (workers w)) with (length (workers w) + 0)%nat at 1 by lia.
    rewrite alter_app_r. reflexivity. }
  split; intros Hrun; apply Hgen, Hrun.
Qed.

(** X10. After an [unsubscribe] of a name, whatever came of it, a second
    one is rejected with "No subscriptions for <name> were found." and
    changes nothing; the names of [Object.prototype] apart. *)
Theorem unsubscribe_twice (name : string) (w : World Store) :
  inherited name = false ->
  unsubscribe name (snd (unsubscribe name w)) =
    (Rejected (Reason (VStr ("No subscriptions for " +:+ name +:+ " were found."))),
     snd (unsubscribe name w)).
Proof.
  intros Hinh.
  assert (Hgone : subscriptions (snd (unsubscribe name w)) !! name = None).
  { rewrite unsubscribe_subscriptions. apply lookup_delete_eq. }
  unfold unsubscribe at 1. rewrite Hgone, Hinh. reflexivity.
Qed.

Lemma checked_watch_other (name target other : string) (args : list JsVal)
    (w : World Store) :
  other <> target ->
  subscriptions (snd (then_ (checked (checkSubscribeArgs env name args))
                            (fun oc => watch env target (fst oc) (snd oc)) w)) !! other =
    subscriptions w !! other.
Proof.
  intros Hne.
  destruct (checked_watch_effect name target args w)
    as [[_ ->] | (o & cb & o2 & _ & _ & _ & ->)]; [reflexivity |].
  cbn [snd subscriptions]. apply lookup_insert_ne. congruence.
Qed.

(** X14. With a completion suffix that is not empty, a queue and its
    completion channel are two names in the registry: [onComplete] and
    [offComplete] leave the entry of the queue alone, [subscribe] and
    [unsubscribe] the entry of the completion channel. *)
Theorem completion_channel_apart (name : string) (args : list JsVal) (w : World Store) :
  completedJobSuffix env <> "" ->
  subscriptions (snd (onComplete env name args w)) !! name = subscriptions w !! name /\
  subscriptions (snd (offComplete env name w)) !! name = subscriptions w !! name /\
  subscriptions (snd (subscribe env name args w)) !! (name +:+ completedJobSuffix env) =
    subscriptions w !! (name +:+ completedJobSuffix env) /\
  subscriptions (snd (unsubscribe name w)) !! (name +:+ completedJobSuffix env) =
    subscriptions w !! (name +:+ completedJobSuffix env).
Proof.
  intros Hs. pose proof (append_changes name _ Hs) as Hne.
  split; [apply checked_watch_other; congruence |].
  split; [unfold offComplete; rewrite unsubscribe_subscriptions;
          apply lookup_delete_ne; exact Hne |].
  split; [apply checked_watch_other; exact Hne |].
  rewrite unsubscribe_subscriptions. apply lookup_delete_ne. congruence.
Qed.

(** No name of [Object.prototype] is ever registered. *)
Lemma reachable_not_inherited (w : World Store) :
  reachable env w ->
  forall name, inherited name = true -> subscriptions w !! name = None.
Proof.
  induction 1 as [s | w w' _ IH Hstep]; intros name Hinh.
  { apply lookup_empty. }
  assert (Hwatch : forall n target args,
            subscriptions (snd (then_ (checked (checkSubscribeArgs env n args))
                                      (fun oc => watch env target (fst oc) (snd oc)) w))
              !! name = None).
  { intros n target args.
    destruct (checked_watch_effect n target args w)
      as [[_ ->] | (o & cb & o2 & _ & _ & Hp & ->)]; [apply IH, Hinh |].
    cbn [snd subscriptions]. rewrite lookup_insert_ne; [apply IH, Hinh |].
    intros ->. unfold has_property in Hp. rewrite Hinh, orb_true_r in Hp.
    discriminate Hp. }
  assert (Hsame : forall w1, same_registry w w1 -> subscriptions w1 !! name = None).
  { intros w1 [Hs _]. rewrite Hs. apply IH, Hinh. }
  assert (Hunsub : forall n, subscriptions (snd (unsubscribe n w)) !! name = None).
  { intros n. rewrite unsubscribe_subscriptions.
    destruct (decide (n = name)) as [-> | Hne];
      [apply lookup_delete_eq | rewrite lookup_delete_ne by exact Hne; apply IH, Hinh]. }
  destruct Hstep.
  - apply Hwatch.
  - apply Hwatch.
  - apply Hunsub.
  - apply Hunsub.
  - apply lookup_empty.
  - apply Hsame. eapply publish_same_registry. eassumption.
  - apply Hsame, fetch_same_registry.
  - apply Hsame, fetch_same_registry.
  - apply Hsame, call_same_registry.
  - apply Hsame, fetch_same_registry.
Qed.

(** X11. The names every object inherits, such as [toString], cannot be
    used as queue names: in every state the process can reach none is
    registered, yet [subscribe] to one is rejected, [watch] failing with
    the already-subscribed assertion, and [unsubscribe] of one throws a
    [TypeError] where it would reject an unknown name. *)
Theorem inherited_names_unusable (name : string) (w : World Store) :
  reachable env w ->
  inherited name = true ->
  subscriptions w !! name = None /\
  (forall options callback,
     watch env name options callback w =
       (Thrown (AssertionError "this job has already been subscribed on this instance."), w)) /\
  (forall args, exists e, subscribe env name args w = (Rejected e, w)) /\
  unsubscribe name w =
    (Thrown (TypeError "Cannot read property 'stop' of undefined"), w).
Proof.
  intros Hreach Hinh.
  pose proof (reachable_not_inherited w Hreach name Hinh) as Hnone.
  assert (Hp : has_property (subscriptions w) name = true)
    by (unfold has_property; rewrite Hinh; apply orb_true_r).
  split; [exact Hnone |].
  split; [intros options callback; apply watch_taken, Hp |].
  split.
  - intros args. unfold subscribe. rewrite checked_watch.
    destruct (checkSubscribeArgs env name args) as [e | [options callback]]; [eauto |].
    rewrite watch_taken by exact Hp. eauto.
  - unfold unsubscribe. rewrite Hnone, Hinh. reflexivity.
Qed.

Lemma unsubscribe_each_length (names : list string) :
  forall w : World Store,
    length (workers (unsubscribe_each names w)) = length (workers w).
Proof.
  induction names as [| name names IH]; intros w; [reflexivity |].
  cbn [unsubscribe_each foldl]. fold (unsubscribe_each names (snd (unsubscribe name w))).
  rewrite IH. unfold unsubscribe.
  destruct (subscriptions w !! name); cbn [snd workers]; [apply length_alter |].
  destruct (inherited name); reflexivity.
Qed.

(** X12. From every state the process can reach, [stop()] resolves to
    [true], leaves the registry empty and no worker running, sends
    nothing to the store and draws no id; a second [stop()] changes
    nothing. *)
Theorem stop_clears (w : World Store) :
  reachable env w ->
  fst (stop w) = Resolved (VBool true) /\
  subscriptions (snd (stop w)) = ∅ /\
  (forall k worker, workers (snd (stop w)) !! k = Some worker -> w_running worker = false) /\
  length (workers (snd (stop w))) = length (workers w) /\
  store (snd (stop w)) = store w /\
  sql_log (snd (stop w)) = sql_log w /\
  issued (snd (stop w)) = issued w /\
  stop (snd (stop w)) = (Resolved (VBool true), snd (stop w)).
Proof.
  intros Hreach.
  pose proof (stop_consistent w (reachable_consistent env w Hreach)) as [H1 _].
  destruct (stop_same_store w) as (Hs & Hl & Hi).
  split; [reflexivity |]. split; [reflexivity |].
  split.
  { intros k worker Hk. destruct (w_running worker) eqn:Hr; [| reflexivity].
    pose proof (H1 k worker Hk Hr) as Hreg.
    unfold stop in Hreg. cbn [snd subscriptions] in Hreg.
    rewrite lookup_empty in Hreg. discriminate Hreg. }
  split; [unfold stop; cbn [snd workers]; apply unsubscribe_each_length |].
  split; [exact Hs |]. split; [exact Hl |]. split; [exact Hi |].
  unfold stop at 1. cbn [snd subscriptions store sql_log issued workers fst].
  unfold stop at 1. cbn [snd subscriptions].
  rewrite map_to_list_empty. reflexivity.
Qed.

(** The batch size [watch] ends with, [batchSize || teamSize]. *)
Lemma watch_options_batch (options options2 : SubscribeOptions) :
  (forall o o', applyNewJobCheckInterval env o = inr o' -> batchSize o' = batchSize o) ->
  watch_options env options = inr options2 ->
  batchSize options2 = num_or (batchSize options) (teamSize options).
Proof.
  intros Hkeep. unfold watch_options.
  destruct (_ || _).
  - intros H. apply Hkeep in H. exact H.
  - intros H. inversion H. reflexivity.
Qed.

(** X18. The worker of a subscription fetches with [batchSize || teamSize]:
    a [batchSize] that is given and not 0 wins over [teamSize]. The
    worker [subscribe] registers fetches as [fetch(name, ...)] does, the
    one [onComplete] registers as [fetchCompleted(name, ...)] does. The
    interval options are taken to be resolved by [Attorney] without
    touching [batchSize]. *)
Theorem worker_fetches_like_fetch (name : string) (args : list JsVal) (v : JsVal)
    (w w' : World Store) (options : SubscribeOptions) (callback : JsVal) :
  (forall o o', applyNewJobCheckInterval env o = inr o' -> batchSize o' = batchSize o) ->
  checkSubscribeArgs env name args = inr (options, callback) ->
  (subscribe env name args w = (Resolved v, w') ->
   exists worker,
     workers w' !! length (workers w) = Some worker /\
     subscriptions w' !! name = Some (length (workers w)) /\
     Worker_fetch env worker =
       fetch env (VStr name) (num_or (batchSize options) (teamSize options)) /\
     (forall n, batchSize options = Some n -> n <> 0 ->
        Worker_fetch env worker = fetch env (VStr name) (Some n))) /\
  (onComplete env name args w = (Resolved v, w') ->
   exists worker,
     workers w' !! length (workers w) = Some worker /\
     subscriptions w' !! (name +:+ completedJobSuffix env) = Some (length (workers w)) /\
     Worker_fetch env worker =
       fetchCompleted env name (num_or (batchSize options) (teamSize options)) /\
     (forall n, batchSize options = Some n -> n <> 0 ->
        Worker_fetch env worker = fetchCompleted env name (Some n))).
Proof.
  intros Hkeep Hargs.
  assert (Hgen : forall target,
    then_ (checked (checkSubscribeArgs env name args))
          (fun oc => watch env target (fst oc) (snd oc)) w = (Resolved v, w') ->
    exists worker,
      workers w' !! length (workers w) = Some worker /\
      subscriptions w' !! target = Some (length (workers w)) /\
      Worker_fetch env worker =
        fetch env (VStr target) (num_or (batchSize options) (teamSize options)) /\
      (forall n, batchSize options = Some n -> n <> 0 ->
         Worker_fetch env worker = fetch env (VStr target) (Some n))).
  { intros target Hrun.
    destruct (checked_watch_resolved env name target args options callback v w w' Hargs Hrun)
      as (options2 & Hopts & _ & ->).
    pose proof (watch_options_batch options options2 Hkeep Hopts) as Hb.
    exists (mkWorker target options2 callback true). cbn [workers subscriptions].
    split; [rewrite lookup_app_r, Nat.sub_diag by lia; reflexivity |].
    split; [apply lookup_insert_eq |].
    unfold Worker_fetch. cbn [w_name w_options]. rewrite Hb.
    split; [reflexivity |].
    intros n Hn Hne. rewrite Hn. unfold num_or. cbn.
    destruct (Z.eqb_spec n 0); [contradiction | reflexivity]. }
  split; intros Hrun; apply (Hgen _ Hrun).
Qed.

(** X6. When the options name neither interval, [watch] takes the
    interval of the configuration and does not consult [Attorney]: the
    subscription succeeds on every free name and its worker polls at
    [config.newJobCheckInterval], with the callback it was given. *)
Theorem watch_default_interval (name : string) (options : SubscribeOptions)
    (callback : JsVal) (w : World Store) :
  newJobCheckInterval options = None ->
  newJobCheckIntervalSeconds options = None ->
  has_property (subscriptions w) name = false ->
  exists worker,
    watch env name options callback w =
      (Resolved (VBool true),
       mkWorld (store w) (sql_log w) (issued w)
               (<[name := length (workers w)]> (subscriptions w))
               (workers w ++ [worker])) /\
    newJobCheckInterval (w_options worker) = Some (config_newJobCheckInterval env) /\
    teamSize (w_options worker) = teamSize options /\
    w_name worker = name /\ w_callback worker = callback /\ w_running worker = true.
Proof.
  intros Hi His Hp. rewrite watch_free by exact Hp.
  unfold watch_options. cbn [set_batchSize newJobCheckInterval newJobCheckIntervalSeconds].
  rewrite Hi, His. cbn.
  eexists. split; [reflexivity |]. repeat split.
Qed.

(** The calls that only talk to the store, seen from the log. *)
Lemma createJob_log_grows (fuel : nat) :
  forall name data options offset (w : World Store) outcome options' w',
    createJob env fuel name data options offset w = Some (outcome, options', w') ->
    (exists sent, sql_log w' = sql_log w ++ sent) /\ (issued w <= issued w')%nat.
Proof.
  induction fuel as [| fuel IH]; intros name data options offset w outcome options' w'.
  - discriminate.
  - rewrite createJob_unfold. cbv zeta.
    assert (Hone : forall values,
              (exists sent, sql_log (inserted env values w) = sql_log w ++ sent) /\
              (issued w <= issued (inserted env values w))%nat).
    { intros values. split; [eexists; reflexivity | cbn; lia]. }
    destruct (fst (db_executeSql env insertJobCommand _ (store w))) as [reason | result].
    { intros H; inversion H; subst. apply Hone. }
    destruct (rowCount result =? 1).
    { intros H; inversion H; subst. apply Hone. }
    destruct (negb (nextSlot_requested options)).
    { intros H; inversion H; subst. apply Hone. }
    intros H. apply IH in H. destruct H as [[sent Hsent] Hissued].
    cbn [inserted sql_log issued] in Hsent, Hissued.
    split; [| lia]. rewrite Hsent, <- app_assoc. eexists. reflexivity.
Qed.

(** X19. Every call works on one side of the process: after any step
    either the store, the commands sent and the ids drawn are as they
    were, or the registry and the workers are. The commands sent are
    never taken back and no id is drawn twice: the log only grows and
    the count of ids never decreases. *)
Theorem step_one_side (w w' : World Store) :
  step env w w' ->
  ((store w' = store w /\ sql_log w' = sql_log w /\ issued w' = issued w) \/
   (subscriptions w' = subscriptions w /\ workers w' = workers w)) /\
  (exists sent, sql_log w' = sql_log w ++ sent) /\
  (issued w <= issued w')%nat.
Proof.
  intros Hstep.
  assert (Hreg : forall w1, same_store w w1 ->
            ((store w1 = store w /\ sql_log w1 = sql_log w /\ issued w1 = issued w) \/
             (subscriptions w1 = subscriptions w /\ workers w1 = workers w)) /\
            (exists sent, sql_log w1 = sql_log w ++ sent) /\
            (issued w <= issued w1)%nat).
  { intros w1 (Hs & Hl & Hi). split; [left; repeat split; assumption |].
    split; [exists []; rewrite app_nil_r; exact Hl | lia]. }
  assert (Hfetch : forall name b,
            ((store (snd (fetch env name b w)) = store w /\
              sql_log (snd (fetch env name b w)) = sql_log w /\
              issued (snd (fetch env name b w)) = issued w) \/
             (subscriptions (snd (fetch env name b w)) = subscriptions w /\
              workers (snd (fetch env name b w)) = workers w)) /\
            (exists sent, sql_log (snd (fetch env name b w)) = sql_log w ++ sent) /\
            (issued w <= issued (snd (fetch env name b w)))%nat).
  { intros name b. split; [right; apply fetch_same_registry |].
    unfold fetch, then_, checked, executeSql, Promise_resolve, Promise_reject.
    destruct (checkFetchArgs env (as_array name) b) as [e | []].
    { cbn. split; [exists []; rewrite app_nil_r; reflexivity | lia]. }
    destruct (db_executeSql env nextJobCommand _ (store w)) as [[reason | result] s];
      cbn; (split; [eexists; reflexivity | lia]). }
  destruct Hstep.
  - apply Hreg, checked_watch_same_store.
  - apply Hreg, checked_watch_same_store.
  - apply Hreg, unsubscribe_same_store.
  - apply Hreg, unsubscribe_same_store.
  - apply Hreg, stop_same_store.
  - split; [right; eapply publish_same_registry; eassumption |].
    unfold publish in H.
    destruct (checkPublishArgs env args) as [e | [[name data] options]].
    + inversion H; subst. split; [exists []; rewrite app_nil_r; reflexivity | lia].
    + destruct (createJob env fuel name data options None w) as [[[o options'] w1] |] eqn:Hc;
        [| discriminate H].
      inversion H; subst. eapply createJob_log_grows, Hc.
  - apply Hfetch.
  - apply Hfetch.
  - split; [right; apply call_same_registry |].
    destruct (truthy id) eqn:Ht; [destruct (as_array id) as [| x ids] eqn:Hids |].
    + assert (Hid : id = VArr []).
      { destruct id; cbn in Hids; try discriminate Hids. subst. reflexivity. }
      rewrite (call_refuses env c id data w (or_intror Hid)). cbn.
      split; [exists []; rewrite app_nil_r; reflexivity | lia].
    + rewrite (call_sends env c id data w Ht) by (rewrite Hids; discriminate). cbn.
      split; [eexists; reflexivity | lia].
    + rewrite (call_refuses env c id data w (or_introl Ht)). cbn.
      split; [exists []; rewrite app_nil_r; reflexivity | lia].
  - apply Hfetch.
Qed.

End RegistryFurther.

(** *** The registry on the scripted store *)

(** The process after one [subscribe] to "email". *)
Lemma email_subscribed_reachable :
  reachable Scenario.plain
    (snd (subscribe Scenario.plain "email" [VFunc 0] (Scenario.boot []))).
Proof.
  exact (reachable_step Scenario.plain _ _ (reachable_started Scenario.plain [])
           (step_subscribe Scenario.plain "email" [VFunc 0] (started []))).
Qed.

(** The scripted [Attorney] hands the options back as they are. *)
Lemma scripted_keeps_batchSize (po : PublishOptions) (so o o' : SubscribeOptions) :
  applyNewJobCheckInterval (Scenario.collaborators po so) o = inr o' ->
  batchSize o' = batchSize o.
Proof. intros H. inversion H. reflexivity. Qed.

Lemma subscribe_unsubscribe_witness :
  exists worker,
    unsubscribe "email"
      (snd (subscribe Scenario.plain "email" [VFunc 0] (Scenario.boot []))) =
      (Resolved (VBool true), mkWorld [] [] 0%nat ∅ ([] ++ [worker])) /\
    w_name worker = "email" /\ w_running worker = false.
Proof.
  apply (proj1 (subscribe_unsubscribe Scenario.plain "email" [VFunc 0] (VBool true)
                  (Scenario.boot [])
                  (snd (subscribe Scenario.plain "email" [VFunc 0] (Scenario.boot []))))
               eq_refl).
Defined.

Lemma unsubscribe_twice_witness :
  unsubscribe "email" (snd (unsubscribe "email" (Scenario.boot []))) =
    (Rejected (Reason (VStr "No subscriptions for email were found.")),
     snd (unsubscribe "email" (Scenario.boot []))).
Proof.
  apply (unsubscribe_twice "email" (Scenario.boot []) eq_refl).
Defined.

(** A worker stopped by [unsubscribe] is still stopped once the name is
    subscribed to again. *)
Lemma stopped_workers_stay_stopped_witness :
  exists b,
    workers (snd (subscribe Scenario.plain "email" [VFunc 1]
                    (snd (unsubscribe "email"
                            (snd (subscribe Scenario.plain "email" [VFunc 0]
                                    (Scenario.boot []))))))) !! 0%nat = Some b /\
    w_name b = "email" /\
    w_options b = mkSubscribeOptions None None (Some 1000) None /\
    w_callback b = VFunc 0 /\
    (false = false -> w_running b = false).
Proof.
  apply (stopped_workers_stay_stopped Scenario.plain
           (snd (unsubscribe "email"
                   (snd (subscribe Scenario.plain "email" [VFunc 0] (Scenario.boot [])))))
           _ 0%nat
           (mkWorker "email" (mkSubscribeOptions None None (Some 1000) None) (VFunc 0) false)
           (step_subscribe Scenario.plain "email" [VFunc 1] _)
           eq_refl).
Defined.

Lemma completion_channel_apart_witness :
  subscriptions (snd (onComplete Scenario.plain "email" [VFunc 1]
                        (snd (subscribe Scenario.plain "email" [VFunc 0]
                                (Scenario.boot []))))) !! "email" =
    subscriptions (snd (subscribe Scenario.plain "email" [VFunc 0] (Scenario.boot [])))
      !! "email".
Proof.
  apply (proj1 (completion_channel_apart Scenario.plain "email" [VFunc 1]
                  (snd (subscribe Scenario.plain "email" [VFunc 0] (Scenario.boot [])))
                  ltac:(discriminate))).
Defined.

(** A fresh manager and the name "toString". *)
Lemma inherited_names_unusable_witness :
  unsubscribe "toString" (started ([] : Scenario.Script)) =
    (Thrown (TypeError "Cannot read property 'stop' of undefined"), started []).
Proof.
  apply (proj2 (proj2 (proj2
           (inherited_names_unusable Scenario.plain "toString" (started [])
              (reachable_started Scenario.plain []) eq_refl)))).
Defined.

Lemma stop_clears_witness :
  subscriptions
    (snd (stop (snd (subscribe Scenario.plain "email" [VFunc 0] (Scenario.boot [])))))
  = ∅.
Proof.
  apply (proj1 (proj2 (stop_clears Scenario.plain _ email_subscribed_reachable))).
Defined.

(** A batch size of 5 with a team of 2: the worker fetches 5 at a time. *)
Lemma worker_fetches_like_fetch_witness :
  exists worker,
    workers (snd (subscribe
                    (Scenario.collaborators Scenario.no_options
                       (mkSubscribeOptions (Some 5) (Some 2) None None))
                    "email" [VFunc 0] (Scenario.boot []))) !! 0%nat = Some worker /\
    Worker_fetch (Scenario.collaborators Scenario.no_options
                    (mkSubscribeOptions (Some 5) (Some 2) None None)) worker =
      fetch (Scenario.collaborators Scenario.no_options
               (mkSubscribeOptions (Some 5) (Some 2) None None)) (VStr "email") (Some 5).
Proof.
  destruct (proj1 (worker_fetches_like_fetch
                     (Scenario.collaborators Scenario.no_options
                        (mkSubscribeOptions (Some 5) (Some 2) None None))
                     "email" [VFunc 0] (VBool true) (Scenario.boot [])
                     (snd (subscribe
                             (Scenario.collaborators Scenario.no_options
                                (mkSubscribeOptions (Some 5) (Some 2) None None))
                             "email" [VFunc 0] (Scenario.boot [])))
                     (mkSubscribeOptions (Some 5) (Some 2) None None) (VFunc 0)
                     (scripted_keeps_batchSize _ _) eq_refl) eq_refl)
    as (worker & Hworker & _ & _ & Hfetch).
  exists worker. split; [exact Hworker |].
  exact (Hfetch 5 eq_refl ltac:(discriminate)).
Defined.

Lemma watch_default_interval_witness :
  exists worker,
    watch Scenario.plain "email" Scenario.no_subscribe_options (VFunc 0) (Scenario.boot []) =
      (Resolved (VBool true),
       mkWorld [] [] 0%nat (<["email" := 0%nat]> ∅) ([] ++ [worker])) /\
    newJobCheckInterval (w_options worker) = Some 1000 /\
    teamSize (w_options worker) = None /\
    w_name worker = "email" /\ w_callback worker = VFunc 0 /\ w_running worker = true.
Proof.
  apply (watch_default_interval Scenario.plain "email" Scenario.no_subscribe_options
           (VFunc 0) (Scenario.boot []) eq_refl eq_refl eq_refl).
Defined.

(** A fetch leaves the registry side alone and adds to the log. *)
Lemma step_one_side_witness :
  exists sent,
    sql_log (snd (fetch Scenario.plain (VStr "email") None (Scenario.boot []))) =
      [] ++ sent.
Proof.
  apply (proj1 (proj2 (step_one_side Scenario.plain (Scenario.boot [])
                         (snd (fetch Scenario.plain (VStr "email") None (Scenario.boot [])))
                         (step_fetch Scenario.plain (VStr "email") None (Scenario.boot []))))).
Defined.

End Manager.
